(** * Verification model of rustbridge: decoder, register store, write path,
    API-key middleware and WebSocket subscription filter.

    Shallow embedding of the Rust sources under [src/src]:
    - [modbus/reader.rs]   : [convert_value], the store update of [start_polling]
    - [bridge.rs]          : [start_polling_with_broadcast], write request task
    - [modbus/mod.rs]      : [ModbusClient::new], [read_registers],
                             [write_register], [is_connected]
    - [api/mod.rs]         : [write_register], [handle_socket], [get_device],
                             [list_devices], [get_register]
    - [api/auth.rs]        : [AuthState::is_valid_key], [is_excluded_path],
                             [api_key_auth]
    - [mqtt/mod.rs]        : topics of [MqttPublisher::publish], [publish_status]

    [f64] is modelled by Rocq's primitive binary64 floats, [u16]/[u32] words
    by [Z] with the wrap-around of Rust's [<<] and [as] casts written out. *)

From Stdlib Require Import ZArith List Lia Floats Uint63 Ascii String.
From stdpp Require Import base gmap strings.
Import ListNotations.

Open Scope Z_scope.

(* ------------------------------------------------------------------------- *)
(** ** Configuration ([config.rs]) *)

Module Config.

Inductive RegisterType := Holding | Input | Coil | Discrete.

Inductive DataType := U16 | I16 | U32 | I32 | F32 | Bool.

(** [RegisterConfig]: [address] and [count] are [u16] in the source. *)
Record RegisterConfig := mkRegisterConfig {
  name : string;
  address : Z;
  register_type : RegisterType;
  count : Z;
  data_type : DataType;
  unit : option string;
  scale : option float;
  offset : option float
}.

End Config.

Import Config.

(* ------------------------------------------------------------------------- *)
(** ** Machine integers and float conversions *)

Module Num.

(** [x as f64] for an integer [x] with |x| < 2^63 (exact below 2^53). *)
Definition f64_of_Z (z : Z) : float :=
  if 0 <=? z then PrimFloat.of_uint63 (Uint63.of_Z z)
  else PrimFloat.opp (PrimFloat.of_uint63 (Uint63.of_Z (- z))).

(** [(a as u32) << n] on [u32]: bits shifted past bit 31 are dropped. *)
Definition u32_shl (a n : Z) : Z := Z.land (Z.shiftl a n) (2 ^ 32 - 1).

(** [x as iN]: truncation to [N] bits, read back as two's complement. *)
Definition as_signed (bits x : Z) : Z :=
  (x + 2 ^ (bits - 1)) mod 2 ^ bits - 2 ^ (bits - 1).

(** [m * 2^e] as a binary64 value ([ldshiftexp f k = f * 2^(k - 2101)]). *)
Definition scale2 (m e : Z) : float :=
  PrimFloat.ldshiftexp (PrimFloat.of_uint63 (Uint63.of_Z m)) (Uint63.of_Z (e + 2101)).

(** [f32::from_bits(bits) as f64]: the binary32 value of [bits], widened. *)
Definition f32_from_bits_as_f64 (bits : Z) : float :=
  let sign := Z.testbit bits 31 in
  let exp := Z.land (Z.shiftr bits 23) 255 in
  let mant := Z.land bits (2 ^ 23 - 1) in
  let mag :=
    if exp =? 255 then (if mant =? 0 then PrimFloat.infinity else PrimFloat.nan)
    else if exp =? 0 then scale2 mant (-149)
    else scale2 (mant + 2 ^ 23) (exp - 150) in
  if sign then PrimFloat.opp mag else mag.

Definition is_u16 (w : Z) : Prop := 0 <= w < 2 ^ 16.

End Num.

Import Num.

(** Rust's [Result<T, E>]. *)
Module Result.
Inductive result (A E : Type) := Ok (a : A) | Err (e : E).
Arguments Ok {A E} a.
Arguments Err {A E} e.
End Result.

(* ------------------------------------------------------------------------- *)
(** ** Decoder ([reader.rs], [convert_value]) *)

Module Reader.

(** [raw.first().copied().unwrap_or(0)] *)
Definition first_or_zero (raw : list Z) : Z :=
  match raw with [] => 0 | w :: _ => w end.

(** [(raw[0] as u32) << 16 | raw[1] as u32], guarded by [raw.len() >= 2]. *)
Definition word_pair (raw : list Z) : option Z :=
  match raw with
  | hi :: lo :: _ => Some (Z.lor (u32_shl hi 16) lo)
  | _ => None
  end.

(** The [let raw_value: f64 = match config.data_type { ... }] of
    [convert_value]. *)
Definition raw_value (raw : list Z) (dt : DataType) : float :=
  match dt with
  | U16 => f64_of_Z (first_or_zero raw)
  | I16 => f64_of_Z (as_signed 16 (first_or_zero raw))
  | U32 => match word_pair raw with Some v => f64_of_Z v | None => 0%float end
  | I32 => match word_pair raw with
           | Some v => f64_of_Z (as_signed 32 v) | None => 0%float end
  | F32 => match word_pair raw with
           | Some bits => f32_from_bits_as_f64 bits | None => 0%float end
  | Bool => if negb (first_or_zero raw =? 0) then 1%float else 0%float
  end.

(** [convert_value(raw, config)]: [raw_value * scale + offset]. *)
Definition convert_value (raw : list Z) (config : RegisterConfig) : float :=
  let rv := raw_value raw (data_type config) in
  let s := match scale config with Some s => s | None => 1%float end in
  let o := match offset config with Some o => o | None => 0%float end in
  (rv * s + o)%float.

End Reader.

(** Reference decoder, following the table of the specification (4.1):
    the words a data type needs, and the value each one denotes. *)
Module SpecDecode.

Definition required_words (dt : DataType) : nat :=
  match dt with U16 | I16 | Bool => 1%nat | U32 | I32 | F32 => 2%nat end.

(** 16-bit and 32-bit two's-complement readings of an unsigned word. *)
Definition twos16 (w : Z) : Z := if w <? 2 ^ 15 then w else w - 2 ^ 16.
Definition twos32 (v : Z) : Z := if v <? 2 ^ 31 then v else v - 2 ^ 32.

(** [(hi << 16) | lo], high word first. *)
Definition hi_lo (hi lo : Z) : Z := Z.lor (Z.shiftl hi 16) lo.

Definition decode (dt : DataType) (raw : list Z) : float :=
  match dt, raw with
  | U16, w :: _ => f64_of_Z w
  | I16, w :: _ => f64_of_Z (twos16 w)
  | U32, hi :: lo :: _ => f64_of_Z (hi_lo hi lo)
  | I32, hi :: lo :: _ => f64_of_Z (twos32 (hi_lo hi lo))
  | F32, hi :: lo :: _ => f32_from_bits_as_f64 (hi_lo hi lo)
  | Bool, w :: _ => if w =? 0 then 0%float else 1%float
  | _, _ => 0%float
  end.

(** Final value: [decoded * scale + offset], defaults 1.0 and 0.0. *)
Definition value (config : RegisterConfig) (raw : list Z) : float :=
  let s := match scale config with None => 1%float | Some s => s end in
  let o := match offset config with None => 0%float | Some o => o end in
  (decode (data_type config) raw * s + o)%float.

End SpecDecode.

(* ------------------------------------------------------------------------- *)
(** ** Register store ([reader.rs]: [RegisterValue], [RegisterStore]) *)

Module Store.

(** [RegisterValue]; [timestamp] is the [chrono::Utc::now()] instant, taken
    as an integer clock reading. *)
Record RegisterValue := mkRegisterValue {
  name : string;
  raw : list Z;
  value : float;
  unit : option string;
  timestamp : Z
}.

(** [HashMap<String, HashMap<String, RegisterValue>>] behind the [RwLock]. *)
Abbreviation RegisterStore := (gmap string (gmap string RegisterValue)).

(** The write-lock block of the poll loops:
    [store.entry(device_id).or_insert_with(HashMap::new)
       .insert(register.name, reg_value)]. *)
Definition commit (device_id : string) (rv : RegisterValue)
    (store : RegisterStore) : RegisterStore :=
  let device_map := default ∅ (store !! device_id) in
  <[device_id := <[name rv := rv]> device_map]> store.

(** [get_device] of [api/mod.rs]: [None] is the 404 "Device not found";
    otherwise the vector of the device's register values. *)
Definition get_device (store : RegisterStore) (device_id : string)
    : option (list RegisterValue) :=
  (fun regs : gmap string RegisterValue => (map_to_list regs).*2) <$> store !! device_id.

End Store.

(* ------------------------------------------------------------------------- *)
(** ** API data types ([api/mod.rs]) *)

Module Api.

(** [RegisterUpdate]; [timestamp] stands for [reg_value.timestamp.to_rfc3339()]. *)
Record RegisterUpdate := mkRegisterUpdate {
  device_id : string;
  register_name : string;
  value : float;
  raw : list Z;
  unit : option string;
  timestamp : Z
}.

(** [WriteRequest] without its [response_tx]: the reply channel is modelled
    by the outcome the receiver observes (see [ReplyOutcome]). *)
Record WriteRequest := mkWriteRequest {
  req_device_id : string;
  req_address : Z;
  req_value : Z
}.

(** [ApiError { error, code, details }]. *)
Record ApiError := mkApiError {
  error : string;
  code : Z;
  details : option string
}.

(** [WriteRegisterResponse]. *)
Record WriteRegisterResponse := mkWriteRegisterResponse {
  success : bool;
  resp_device_id : string;
  resp_register_name : string;
  value_written : Z;
  message : string
}.

End Api.

(* ------------------------------------------------------------------------- *)
(** ** Poll loop ([bridge.rs], [start_polling_with_broadcast]) *)

Module Bridge.

Inductive ConnectionConfig :=
| Tcp (host : string) (port : Z) (unit_id : Z)
| Rtu (port : string) (baud_rate : Z) (data_bits : Z) (stop_bits : Z)
      (parity : string) (unit_id : Z).

Record DeviceConfig := mkDeviceConfig {
  id : string;
  dev_name : string;
  connection : ConnectionConfig;
  poll_interval_ms : Z;
  registers : list RegisterConfig
}.

(** Result of [client.read_registers(register).await]; on success the
    [Utc::now()] reading taken right after it. *)
Inductive ReadResult :=
| ReadOk (raw_values : list Z) (now : Z)
| ReadErr (e : string).

(** What one poll loop touches: the shared store and the broadcast log
    (every [broadcaster.send(update)], in order). *)
Record PollState := mkPollState {
  store : Store.RegisterStore;
  published : list Api.RegisterUpdate
}.

(** One iteration of [for register in &config.registers]. *)
Definition poll_register (device_id : string) (register : RegisterConfig)
    (res : ReadResult) (st : PollState) : PollState :=
  match res with
  | ReadOk raw_values now =>
      let value := Reader.convert_value raw_values register in
      let reg_value := Store.mkRegisterValue (name register) raw_values value
                         (unit register) now in
      let update := Api.mkRegisterUpdate device_id (name register)
                      (Store.value reg_value) (Store.raw reg_value)
                      (Store.unit reg_value) (Store.timestamp reg_value) in
      mkPollState (Store.commit device_id reg_value (store st))
                  (published st ++ [update])
  | ReadErr _ => st
  end.

(** One tick: the registers in configured order, [io] answering each read. *)
Definition poll_registers (device_id : string) (regs : list RegisterConfig)
    (io : RegisterConfig -> ReadResult) (st : PollState) : PollState :=
  fold_left (fun st register => poll_register device_id register (io register) st)
            regs st.

Definition poll_cycle (config : DeviceConfig) (io : RegisterConfig -> ReadResult)
    (st : PollState) : PollState :=
  poll_registers (id config) (registers config) io st.

(** States the store can be in: [Bridge::new] starts from an empty map; the
    only writers are the poll loops, one register at a time (readers may
    observe the store between any two registers). *)
Inductive reachable : PollState -> Prop :=
| reach_init : reachable (mkPollState ∅ [])
| reach_step device_id register res st :
    reachable st -> reachable (poll_register device_id register res st).

End Bridge.

(* ------------------------------------------------------------------------- *)
(** ** Write path ([modbus/mod.rs], [bridge.rs], [api/mod.rs]) *)

Module Write.

Import Api.

(** [ModbusClient]: [context] is [Some] for a connected TCP device and
    [None] for RTU ([ModbusClient::new] leaves RTU unconnected). *)
Record ModbusClient := mkModbusClient {
  client_device_id : string;
  context : option string
}.

Definition client_new (config : Bridge.DeviceConfig) : ModbusClient :=
  mkModbusClient (Bridge.id config)
    (match Bridge.connection config with
     | Bridge.Tcp host _ _ => Some host
     | Bridge.Rtu _ _ _ _ _ _ => None
     end).

(** [ModbusClient::write_register]; [peer] is the device's answer to
    [write_single_register(address, value)]. *)
Definition write_register (peer : string -> Z -> Z -> option string)
    (client : ModbusClient) (address value : Z) : Result.result Datatypes.unit string :=
  match context client with
  | None => Result.Err "No connection available"
  | Some ctx =>
      match peer ctx address value with
      | None => Result.Ok tt
      | Some e => Result.Err (String.append "Modbus write error: " e)
      end
  end.

(** The write request task spawned by [Bridge::run]: every request is
    answered [Ok(())] ("For now, acknowledge the write request"). *)
Definition write_task_reply (request : WriteRequest) : Result.result Datatypes.unit string :=
  Result.Ok tt.

(** First phase of the [write_register] handler: look the device and the
    register up in the store and build the [WriteRequest]. *)
Definition build_write_request (register_store : Store.RegisterStore)
    (device_id register_name : string) (value : Z)
    : Result.result WriteRequest ApiError :=
  match register_store !! device_id with
  | None => Result.Err (mkApiError "Device not found" 404 None)
  | Some registers =>
      match registers !! register_name with
      | None => Result.Err (mkApiError "Register not found" 404 None)
      | Some _ =>
          let address := 0 in
          Result.Ok (mkWriteRequest device_id address value)
      end
  end.

(** The bounded [mpsc] write queue as seen by [write_tx.send(..).await]. *)
Record WriteQueue := mkWriteQueue {
  queued : nat;
  capacity : nat;
  receiver_closed : bool
}.

Inductive SendOutcome := SendQueued | SendWaiting | SendClosed.

(** [Sender::send]: errors only once the receiver is gone; on a full queue
    it waits for capacity. *)
Definition mpsc_send (q : WriteQueue) : SendOutcome :=
  if receiver_closed q then SendClosed
  else if (queued q <? capacity q)%nat then SendQueued
  else SendWaiting.

(** What [tokio::time::timeout(5 s, response_rx)] observes. *)
Inductive ReplyOutcome :=
| ReplyTimeout
| ReplyDropped
| Reply (r : Result.result Datatypes.unit string).

(** Handler state: still suspended in [send(..).await], or responded. *)
Inductive HandlerOutcome :=
| AwaitingQueue
| RespondOk (status : Z) (body : WriteRegisterResponse)
| RespondErr (status : Z) (body : ApiError).

Definition err_with_details (status : Z) (error details : string) : HandlerOutcome :=
  RespondErr status (mkApiError error status (Some details)).

(** The [write_register] handler of [api/mod.rs]. *)
Definition write_register_handler (register_store : Store.RegisterStore)
    (device_id register_name : string) (value : Z)
    (q : WriteQueue) (reply : ReplyOutcome) : HandlerOutcome :=
  match build_write_request register_store device_id register_name value with
  | Result.Err e => RespondErr (code e) e
  | Result.Ok _ =>
      match mpsc_send q with
      | SendClosed => err_with_details 503 "Write service unavailable"
                        "The Modbus write handler is not running"
      | SendWaiting => AwaitingQueue
      | SendQueued =>
          match reply with
          | ReplyTimeout => err_with_details 504 "Write timeout"
                              "The Modbus device did not respond in time"
          | ReplyDropped => err_with_details 500 "Write failed"
                              "Response channel closed unexpectedly"
          | Reply (Result.Ok _) =>
              RespondOk 200 (mkWriteRegisterResponse true device_id register_name
                               value "Register written successfully")
          | Reply (Result.Err e) => err_with_details 502 "Modbus write failed" e
          end
      end
  end.

End Write.

(* ------------------------------------------------------------------------- *)
(** ** API-key middleware ([api/auth.rs]) *)

Module Auth.

(** [AuthConfig] (fields as used by [auth.rs] and the API tests). *)
Record AuthConfig := mkAuthConfig {
  enabled : bool;
  api_keys : list string;
  exclude_paths : list string
}.

(** [s.ends_with(c)] for an ASCII [c]: the last byte of [s] is [c]. *)
Fixpoint ends_with (s : string) (c : Ascii.ascii) : bool :=
  match s with
  | EmptyString => false
  | String a EmptyString => Ascii.eqb a c
  | String _ s' => ends_with s' c
  end.

(** [AuthState::is_valid_key]. *)
Definition is_valid_key (config : AuthConfig) (key : string) : bool :=
  existsb (fun k => String.eqb k key) (api_keys config).

(** [AuthState::is_excluded_path]. *)
Definition is_excluded_path (config : AuthConfig) (path : string) : bool :=
  existsb (fun p =>
    if ends_with p "*"%char then
      let prefix := substring 0 (String.length p - 1) p in
      String.prefix prefix path
    else String.eqb path p) (exclude_paths config).

(** [HeaderValue::to_str]: only visible ASCII (and tab) is accepted. *)
Definition header_to_str (v : string) : option string :=
  if forallb (fun a => let n := Ascii.nat_of_ascii a in
                       ((32 <=? n) && (n <? 127)) || (n =? 9))%nat
             (list_ascii_of_string v)
  then Some v else None.

(** [AuthError { error, message }]. *)
Record AuthError := mkAuthError { auth_error : string; auth_message : string }.

Inductive AuthOutcome :=
| RunNext                                  (* [next.run(request)] *)
| Reject (status : Z) (body : AuthError).  (* [(StatusCode, Json(AuthError))] *)

(** [api_key_auth]; [header] is the raw [X-API-Key] header, if any. *)
Definition api_key_auth (config : AuthConfig) (path : string)
    (header : option string) : AuthOutcome :=
  if negb (enabled config) then RunNext
  else if is_excluded_path config path then RunNext
  else
    match header ≫= header_to_str with
    | Some key =>
        if is_valid_key config key then RunNext
        else Reject 401 (mkAuthError "unauthorized" "Invalid API key")
    | None => Reject 401 (mkAuthError "unauthorized" "Missing X-API-Key header")
    end.

(** The exclusion rule in the words of the specification: an entry
    [pre ++ "*"] admits every path starting with [pre]; any other entry
    admits exactly itself. *)
Definition entry_admits (p path : string) : Prop :=
  (exists pre rest, p = String.append pre "*" /\ path = String.append pre rest) \/
  ((~ exists pre, p = String.append pre "*") /\ path = p).

End Auth.

(* ------------------------------------------------------------------------- *)
(** ** WebSocket session ([api/mod.rs], [handle_socket]) *)

Module Ws.

Import Api.

(** [WsMessage], the tagged union of the JSON frames. *)
Inductive WsMessage :=
| Subscribe (devices : option (list string))
| Unsubscribe
| Update (u : RegisterUpdate)
| Error (message : string)
| Connected (message : string)
| Ping
| Pong.

(** What [receiver.next()] yields: a text frame already run through
    [serde_json::from_str::<WsMessage>] ([inr] on a parse error), a
    protocol ping, a close frame, a transport error, end of stream, or any
    other frame. *)
Inductive ClientEvent :=
| ClientText (parsed : WsMessage + string)
| ClientPing (data : list Z)
| ClientClose
| ClientError
| ClientEnd
| ClientOther.

(** What [update_rx.recv()] yields. *)
Inductive BusEvent :=
| BusUpdate (u : RegisterUpdate)
| BusLagged (n : Z)
| BusClosed.

Inductive Event := FromClient (e : ClientEvent) | FromBus (e : BusEvent).

(** Frames handed to [sender.send]. *)
Inductive OutFrame := TextFrame (m : WsMessage) | PongFrame (data : list Z).

(** Loop state: [subscribed_devices] ([None] = all devices), the frames
    sent so far, and whether the [loop] is still running.  Sends are taken
    to succeed (a failed send only ends the loop). *)
Record Session := mkSession {
  subscribed_devices : option (list string);
  sent : list OutFrame;
  running : bool
}.

(** State right after the [connected] frame (its version suffix elided). *)
Definition session_start : Session :=
  mkSession None [TextFrame (Connected "RustBridge WebSocket")] true.

(** [should_send]. *)
Definition should_send (subscribed : option (list string)) (u : RegisterUpdate) : bool :=
  match subscribed with
  | None => true
  | Some [] => false
  | Some devices => existsb (fun d => String.eqb d (device_id u)) devices
  end.

Definition emit (s : Session) (f : OutFrame) : Session :=
  mkSession (subscribed_devices s) (sent s ++ [f]) (running s).

Definition stop (s : Session) : Session :=
  mkSession (subscribed_devices s) (sent s) false.

(** One branch of the [tokio::select!]. *)
Definition step (s : Session) (ev : Event) : Session :=
  if negb (running s) then s else
  match ev with
  | FromClient (ClientText (inl (Subscribe devices))) =>
      mkSession devices (sent s) (running s)
  | FromClient (ClientText (inl Unsubscribe)) =>
      mkSession (Some []) (sent s) (running s)
  | FromClient (ClientText (inl Ping)) => emit s (TextFrame Pong)
  | FromClient (ClientText (inl _)) => s
  | FromClient (ClientText (inr e)) =>
      emit s (TextFrame (Error (String.append "Invalid message format: " e)))
  | FromClient (ClientPing data) => emit s (PongFrame data)
  | FromClient ClientClose | FromClient ClientError | FromClient ClientEnd => stop s
  | FromClient ClientOther => s
  | FromBus (BusUpdate u) =>
      if should_send (subscribed_devices s) u then emit s (TextFrame (Update u)) else s
  | FromBus (BusLagged _) => s
  | FromBus BusClosed => stop s
  end.

Definition run (s : Session) (evs : list Event) : Session := fold_left step evs s.

(** The filter of the specification (4.8). *)
Inductive Filter := All | Only (ids : list string).

Definition filter_of_subscribe (devices : option (list string)) : Filter :=
  match devices with None => All | Some ids => Only ids end.

Definition filter_matches (f : Filter) (device : string) : Prop :=
  match f with All => True | Only ids => In device ids end.

(** The session's [subscribed_devices] denotes a filter. *)
Definition denotes (subscribed : option (list string)) : Filter :=
  match subscribed with None => All | Some ids => Only ids end.

End Ws.

(* ------------------------------------------------------------------------- *)
(** ** Device reads ([modbus/mod.rs], [ModbusClient::read_registers]) *)

Module Modbus.

Import Result.

(** The peer answering the four read function codes at [(address, count)]:
    [read_holding_registers], [read_input_registers], [read_coils],
    [read_discrete_inputs] of [client::Context] (errors as their text). *)
Record Peer := mkPeer {
  read_holding : Z -> Z -> result (list Z) string;
  read_input : Z -> Z -> result (list Z) string;
  read_coils : Z -> Z -> result (list bool) string;
  read_discrete : Z -> Z -> result (list bool) string
}.

(** [.map_err(|e| anyhow!("Modbus error: {}", e))?] *)
Definition modbus_err {A} (r : result A string) : result A string :=
  match r with Ok v => Ok v | Err e => Err (String.append "Modbus error: " e) end.

(** [|&b| if b { 1u16 } else { 0u16 }] *)
Definition bool_word (b : bool) : Z := if b then 1 else 0.

Definition map_ok {A B} (f : A -> B) (r : result A string) : result B string :=
  match r with Ok v => Ok (f v) | Err e => Err e end.

(** [ModbusClient::read_registers]. *)
Definition read_registers (peer : Peer) (client : Write.ModbusClient)
    (register : RegisterConfig) : result (list Z) string :=
  match Write.context client with
  | None => Err "No connection available"
  | Some _ =>
      match register_type register with
      | Holding => modbus_err (read_holding peer (address register) (count register))
      | Input => modbus_err (read_input peer (address register) (count register))
      | Coil => map_ok (map bool_word)
                  (modbus_err (read_coils peer (address register) (count register)))
      | Discrete => map_ok (map bool_word)
                  (modbus_err (read_discrete peer (address register) (count register)))
      end
  end.

(** [ModbusClient::is_connected]. *)
Definition is_connected (client : Write.ModbusClient) : bool :=
  match Write.context client with Some _ => true | None => false end.

(** How the poll loops see a read: [client.read_registers(register)]
    followed, on success, by the [Utc::now()] reading [clock register]. *)
Definition poll_io (peer : Peer) (client : Write.ModbusClient)
    (clock : RegisterConfig -> Z) (register : RegisterConfig) : Bridge.ReadResult :=
  match read_registers peer client register with
  | Ok raw_values => Bridge.ReadOk raw_values (clock register)
  | Err e => Bridge.ReadErr e
  end.

End Modbus.

(* ------------------------------------------------------------------------- *)
(** ** [start_polling] of [modbus/reader.rs] (store only, no broadcast) *)

Module ReaderLoop.

(** One iteration of its [for register in &config.registers]. *)
Definition poll_register (device_id : string) (register : RegisterConfig)
    (res : Bridge.ReadResult) (store : Store.RegisterStore) : Store.RegisterStore :=
  match res with
  | Bridge.ReadOk raw_values now =>
      let value := Reader.convert_value raw_values register in
      let reg_value := Store.mkRegisterValue (name register) raw_values value
                         (unit register) now in
      <[device_id := <[name register := reg_value]>
                       (default ∅ (store !! device_id))]> store
  | Bridge.ReadErr _ => store
  end.

End ReaderLoop.

(* ------------------------------------------------------------------------- *)
(** ** Read endpoints ([api/mod.rs]: [list_devices], [get_register]) *)

Module ApiRead.

Import Result Api.

(** [DeviceSummary]; [last_update] is the greatest register timestamp. *)
Record DeviceSummary := mkDeviceSummary {
  summary_id : string;
  register_count : nat;
  last_update : option Z
}.

(** [.map(|r| r.timestamp).max()] *)
Definition max_timestamp (ts : list Z) : option Z :=
  fold_left (fun acc t => match acc with None => Some t | Some m => Some (Z.max m t) end)
            ts None.

Definition summarize (device_id : string) (registers : gmap string Store.RegisterValue)
    : DeviceSummary :=
  mkDeviceSummary device_id (size registers)
    (max_timestamp ((map_to_list registers).*2 ≫= fun r => [Store.timestamp r])).

(** [list_devices]: the summaries and their [count]. *)
Definition list_devices (store : Store.RegisterStore) : list DeviceSummary * nat :=
  let devices := map (fun '(id, regs) => summarize id regs) (map_to_list store) in
  (devices, List.length devices).

(** [get_register]. *)
Definition get_register (store : Store.RegisterStore) (device_id register_name : string)
    : result Store.RegisterValue ApiError :=
  match store !! device_id with
  | None => Err (mkApiError "Device not found" 404 None)
  | Some registers =>
      match registers !! register_name with
      | None => Err (mkApiError "Register not found" 404 None)
      | Some r => Ok r
      end
  end.

End ApiRead.

(* ------------------------------------------------------------------------- *)
(** ** MQTT publisher ([mqtt/mod.rs]) *)

Module Mqtt.

Inductive QoS := AtMostOnce | AtLeastOnce | ExactlyOnce.

(** The [match config.qos] of [MqttPublisher::new] ([qos] is a [u8]). *)
Definition qos_of (qos : Z) : QoS :=
  if qos =? 0 then AtMostOnce
  else if qos =? 1 then AtLeastOnce
  else if qos =? 2 then ExactlyOnce
  else AtLeastOnce.

(** A [client.publish(topic, qos, retain, payload)] call. *)
Record Publish := mkPublish {
  topic : string;
  qos : QoS;
  retain : bool;
  payload_is_status : option bool   (* [Some online] for status messages *)
}.

Record MqttPublisher := mkMqttPublisher { topic_prefix : string; pub_qos : QoS }.

(** [format!("{}/{}/{}", self.topic_prefix, device_id, value.name)] *)
Definition value_topic (p : MqttPublisher) (device_id register_name : string) : string :=
  String.append (topic_prefix p)
    (String.append "/" (String.append device_id (String.append "/" register_name))).

(** [format!("{}/{}/status", self.topic_prefix, device_id)] *)
Definition status_topic (p : MqttPublisher) (device_id : string) : string :=
  String.append (topic_prefix p)
    (String.append "/" (String.append device_id "/status")).

(** [MqttPublisher::publish] (retain flag [false]). *)
Definition publish (p : MqttPublisher) (device_id : string) (value : Store.RegisterValue)
    : Publish :=
  mkPublish (value_topic p device_id (Store.name value)) (pub_qos p) false None.

(** [MqttPublisher::publish_status] (retain flag [true]). *)
Definition publish_status (p : MqttPublisher) (device_id : string) (online : bool)
    : Publish :=
  mkPublish (status_topic p device_id) (pub_qos p) true (Some online).

End Mqtt.

(* ------------------------------------------------------------------------- *)
(** ** Observations: what a poll cycle broadcasts, what a session forwards *)

Module Observe.

(** The update broadcast for one read, if it succeeded. *)
Definition update_of (device_id : string) (register : RegisterConfig)
    (res : Bridge.ReadResult)
    : list Api.RegisterUpdate :=
  match res with
  | Bridge.ReadOk raw_values now =>
      [Api.mkRegisterUpdate device_id (name register)
         (Reader.convert_value raw_values register) raw_values (unit register) now]
  | Bridge.ReadErr _ => []
  end.

(** The register updates carried by a list of bus events, and by a list of
    frames sent to the client. *)
Fixpoint bus_updates (evs : list Ws.Event) : list Api.RegisterUpdate :=
  match evs with
  | [] => []
  | Ws.FromBus (Ws.BusUpdate u) :: evs' => u :: bus_updates evs'
  | _ :: evs' => bus_updates evs'
  end.

Fixpoint frame_updates (frames : list Ws.OutFrame) : list Api.RegisterUpdate :=
  match frames with
  | [] => []
  | Ws.TextFrame (Ws.Update u) :: frames' => u :: frame_updates frames'
  | _ :: frames' => frame_updates frames'
  end.

End Observe.

(* ========================================================================= *)
(** * Properties *)

Module DecoderFacts.

Import Reader SpecDecode.

Lemma u32_shl_16_small (hi : Z) : 0 <= hi < 2 ^ 16 -> u32_shl hi 16 = Z.shiftl hi 16.
Proof.
  intros H. unfold u32_shl.
  change (2 ^ 32 - 1) with (Z.ones 32).
  rewrite Z.land_ones by lia.
  rewrite Z.shiftl_mul_pow2 by lia.
  apply Z.mod_small. lia.
Qed.

Lemma hi_lo_arith (hi lo : Z) :
  0 <= hi -> 0 <= lo < 2 ^ 16 -> hi_lo hi lo = hi * 2 ^ 16 + lo.
Proof.
  intros Hhi Hlo. unfold hi_lo.
  assert (Hdis : Z.land (Z.shiftl hi 16) lo = 0).
  { apply Z.bits_inj'. intros n Hn.
    rewrite Z.land_spec, Z.bits_0, Z.shiftl_spec by lia.
    destruct (Z.lt_ge_cases n 16).
    - rewrite (Z.testbit_neg_r hi (n - 16)) by lia. reflexivity.
    - rewrite <- (Z.mod_small lo (2 ^ 16)) by lia.
      rewrite Z.mod_pow2_bits_high by lia. apply andb_false_r. }
  rewrite <- Z.lxor_lor by exact Hdis.
  rewrite <- Z.add_nocarry_lxor by exact Hdis.
  rewrite Z.shiftl_mul_pow2 by lia. reflexivity.
Qed.

Lemma as_signed_16 (w : Z) : 0 <= w < 2 ^ 16 -> as_signed 16 w = twos16 w.
Proof.
  intros H. unfold as_signed, twos16. change (16 - 1) with 15.
  destruct (Z.ltb_spec w (2 ^ 15)).
  - rewrite Z.mod_small by lia. lia.
  - replace ((w + 2 ^ 15) mod 2 ^ 16) with (w + 2 ^ 15 - 2 ^ 16); [lia|].
    apply Z.mod_unique with 1; lia.
Qed.

Lemma as_signed_32 (v : Z) : 0 <= v < 2 ^ 32 -> as_signed 32 v = twos32 v.
Proof.
  intros H. unfold as_signed, twos32. change (32 - 1) with 31.
  destruct (Z.ltb_spec v (2 ^ 31)).
  - rewrite Z.mod_small by lia. lia.
  - replace ((v + 2 ^ 31) mod 2 ^ 32) with (v + 2 ^ 31 - 2 ^ 32); [lia|].
    apply Z.mod_unique with 1; lia.
Qed.

Lemma word_pair_hi_lo (hi lo : Z) (rest : list Z) :
  is_u16 hi -> is_u16 lo ->
  word_pair (hi :: lo :: rest) = Some (hi_lo hi lo) /\ 0 <= hi_lo hi lo < 2 ^ 32.
Proof.
  unfold is_u16. intros Hhi Hlo. simpl.
  rewrite u32_shl_16_small by exact Hhi. split; [reflexivity|].
  rewrite hi_lo_arith by lia. lia.
Qed.

(** C1: on words of [u16] range and at least [required_words] of them,
    [convert_value] is the reference decoding of the specification followed
    by [* scale + offset] with defaults 1.0 and 0.0. *)
Theorem convert_value_refines_spec (config : RegisterConfig) (raw : list Z)
    (Hwords : Forall is_u16 raw)
    (Hlen : (required_words (data_type config) <= List.length raw)%nat) :
  convert_value raw config = SpecDecode.value config raw.
Proof.
  unfold convert_value, SpecDecode.value.
  assert (Hdec : raw_value raw (data_type config) = decode (data_type config) raw).
  { destruct raw as [|w [|w2 rest]];
      destruct (data_type config); simpl in Hlen; try lia.
    - reflexivity.
    - inversion Hwords; subst. simpl. rewrite as_signed_16 by assumption. reflexivity.
    - simpl. destruct (negb (w =? 0)) eqn:E; destruct (w =? 0); easy.
    - reflexivity.
    - inversion Hwords; subst. simpl. rewrite as_signed_16 by assumption. reflexivity.
    - inversion Hwords as [|? ? Hw Htl]; subst. inversion Htl as [|? ? Hw2 _]; subst.
      unfold raw_value; destruct (word_pair_hi_lo w w2 rest Hw Hw2) as [-> _]. reflexivity.
    - inversion Hwords as [|? ? Hw Htl]; subst. inversion Htl as [|? ? Hw2 _]; subst.
      unfold raw_value; destruct (word_pair_hi_lo w w2 rest Hw Hw2) as [-> Hr].
      simpl. rewrite as_signed_32 by exact Hr. reflexivity.
    - inversion Hwords as [|? ? Hw Htl]; subst. inversion Htl as [|? ? Hw2 _]; subst.
      unfold raw_value; destruct (word_pair_hi_lo w w2 rest Hw Hw2) as [-> _]. reflexivity.
    - simpl. destruct (negb (w =? 0)) eqn:E; destruct (w =? 0); easy. }
  rewrite Hdec.
  destruct (scale config), (offset config); reflexivity.
Qed.

(** Witness for C1: the [pi] scenario of the specification. *)
Lemma convert_value_refines_spec_witness :
  let config := mkRegisterConfig "pi" 0 Holding 2 F32 None None None in
  Forall is_u16 [0x4049; 0x0FDB] /\
  (required_words (data_type config) <= List.length [0x4049; 0x0FDB]%Z)%nat /\
  convert_value [0x4049; 0x0FDB] config = SpecDecode.value config [0x4049; 0x0FDB].
Proof.
  intros config.
  assert (Hw : Forall is_u16 [0x4049; 0x0FDB])
    by (repeat constructor; unfold is_u16; lia).
  assert (Hl : (required_words (data_type config) <= List.length [0x4049; 0x0FDB]%Z)%nat)
    by (simpl; lia).
  split; [exact Hw | split; [exact Hl |]].
  exact (convert_value_refines_spec config [0x4049; 0x0FDB] Hw Hl).
Defined.

(** C2: with fewer words than the data type needs (none at all included),
    the decoded value is [0.0]; the decoder is a total function. *)
Theorem raw_value_short_is_zero (dt : DataType) (raw : list Z) :
  (List.length raw < required_words dt)%nat -> raw_value raw dt = 0%float.
Proof.
  intros Hlen.
  destruct raw as [|w [|w2 rest]]; destruct dt; simpl in Hlen; try lia;
    reflexivity.
Qed.

Lemma raw_value_short_is_zero_witness :
  (List.length [1]%Z < required_words U32)%nat /\ raw_value [1] U32 = 0%float.
Proof.
  assert (H : (List.length [1]%Z < required_words U32)%nat) by (simpl; lia).
  split; [exact H | exact (raw_value_short_is_zero U32 [1] H)].
Defined.

(** C10: once the required words are present, trailing words do not change
    the converted value. *)
Theorem convert_value_ignores_trailing (config : RegisterConfig) (raw extra : list Z) :
  (required_words (data_type config) <= List.length raw)%nat ->
  convert_value (raw ++ extra) config = convert_value raw config.
Proof.
  intros Hlen. unfold convert_value.
  assert (Hdec : raw_value (raw ++ extra) (data_type config)
                 = raw_value raw (data_type config)).
  { destruct raw as [|w [|w2 rest]];
      destruct (data_type config); simpl in Hlen; try lia; reflexivity. }
  rewrite Hdec. reflexivity.
Qed.

Lemma convert_value_ignores_trailing_witness :
  let config := mkRegisterConfig "flow" 0 Holding 2 U32 None None None in
  (required_words (data_type config) <= List.length [15; 16960]%Z)%nat /\
  convert_value ([15; 16960] ++ [7; 8]) config = convert_value [15; 16960] config.
Proof.
  intros config.
  assert (H : (required_words (data_type config) <= List.length [15; 16960]%Z)%nat)
    by (simpl; lia).
  split; [exact H | exact (convert_value_ignores_trailing config [15; 16960] [7; 8] H)].
Defined.

End DecoderFacts.

Module StoreFacts.

Import Bridge.

(** C6: a successful read upserts the register's value under its device
    (other entries untouched); a failed read leaves the whole state, hence
    the last-good value, unchanged, and the cycle goes on with the
    remaining registers from that same state. *)
Theorem poll_step_store_effect :
  (forall (device_id : string) (register : RegisterConfig) (raw_values : list Z)
          (now : Z) (st : PollState),
     store (poll_register device_id register (ReadOk raw_values now) st)
     = <[device_id := <[name register :=
           Store.mkRegisterValue (name register) raw_values
             (Reader.convert_value raw_values register) (unit register) now]>
           (default ∅ (store st !! device_id))]> (store st)) /\
  (forall (device_id : string) (register : RegisterConfig) (e : string) (st : PollState),
     poll_register device_id register (ReadErr e) st = st) /\
  (forall (device_id : string) (register : RegisterConfig) (rest : list RegisterConfig)
          (io : RegisterConfig -> ReadResult) (e : string) (st : PollState),
     io register = ReadErr e ->
     poll_registers device_id (register :: rest) io st = poll_registers device_id rest io st).
Proof.
  split; [|split].
  - intros. reflexivity.
  - intros. reflexivity.
  - intros device_id register rest io e st Hio.
    unfold poll_registers. simpl. rewrite Hio. reflexivity.
Qed.

Lemma poll_step_store_effect_witness :
  let reg := mkRegisterConfig "temperature" 0 Holding 1 U16 None None None in
  let io := fun _ : RegisterConfig => ReadErr "Modbus error: timeout" in
  io reg = ReadErr "Modbus error: timeout" /\
  poll_registers "plc-001" [reg] io (mkPollState ∅ [])
  = poll_registers "plc-001" [] io (mkPollState ∅ []).
Proof.
  intros reg io.
  split; [reflexivity|].
  destruct poll_step_store_effect as [_ [_ H]].
  exact (H "plc-001" reg [] io "Modbus error: timeout" (mkPollState ∅ []) eq_refl).
Defined.

(** Inner maps of reachable states are non-empty, and each stored device
    has had at least one update published (one per commit). *)
Lemma reachable_device_maps (st : PollState) :
  reachable st ->
  forall (d : string) (m : gmap string Store.RegisterValue),
    store st !! d = Some m ->
    m <> ∅ /\ exists u, In u (published st) /\ Api.device_id u = d.
Proof.
  induction 1 as [|device_id register res st Hreach IH].
  - intros d m Hd. simpl in Hd. rewrite lookup_empty in Hd. discriminate.
  - intros d m Hd. destruct res as [raw_values now | e]; simpl in *; [|eauto].
    unfold Store.commit in Hd.
    destruct (decide (device_id = d)) as [<-|Hne].
    + rewrite lookup_insert_eq in Hd. injection Hd as <-.
      split; [apply insert_non_empty|].
      eexists. split; [apply in_or_app; right; left; reflexivity|reflexivity].
    + rewrite lookup_insert_ne in Hd by exact Hne.
      destruct (IH d m Hd) as [Hm [u [Hu Hud]]].
      split; [exact Hm|].
      exists u. split; [apply in_or_app; left; exact Hu|exact Hud].
Qed.

(** C7: in every reachable state, [get_device] answering [Found] means the
    device's register list is non-empty and some register of that device
    was committed (and broadcast). *)
Theorem get_device_found_nonempty (st : PollState) (Hreach : reachable st)
    (d : string) (regs : list Store.RegisterValue) :
  Store.get_device (store st) d = Some regs ->
  regs <> [] /\ exists u, In u (published st) /\ Api.device_id u = d.
Proof.
  unfold Store.get_device. intros Hget.
  destruct (store st !! d) as [m|] eqn:Hd; simpl in Hget; [|discriminate].
  injection Hget as <-.
  destruct (reachable_device_maps st Hreach d m Hd) as [Hm Hpub].
  split; [|exact Hpub].
  intros Hnil. apply Hm.
  apply map_to_list_empty_iff.
  destruct (map_to_list m); [reflexivity|discriminate].
Qed.

Lemma get_device_found_nonempty_witness :
  let reg := mkRegisterConfig "temperature" 0 Holding 1 U16 None None None in
  let st := poll_register "plc-001" reg (ReadOk [250] 1700000000) (mkPollState ∅ []) in
  reachable st /\
  Store.get_device (store st) "plc-001" =
    Some [Store.mkRegisterValue "temperature" [250] 250%float None 1700000000] /\
  ([Store.mkRegisterValue "temperature" [250] 250%float None 1700000000] <> [] /\
   exists u, In u (published st) /\ Api.device_id u = "plc-001").
Proof.
  intros reg st.
  assert (Hr : reachable st) by (apply reach_step, reach_init).
  assert (Hg : Store.get_device (store st) "plc-001" =
    Some [Store.mkRegisterValue "temperature" [250] 250%float None 1700000000])
    by (vm_compute; reflexivity).
  split; [exact Hr|split; [exact Hg|]].
  exact (get_device_found_nonempty st Hr "plc-001" _ Hg).
Defined.

End StoreFacts.

Module WriteFacts.

Import Bridge Write Api.

(** The store of the API tests: [plc-001] with a polled [temperature]. *)
Definition seeded_store (temperature : RegisterConfig) : Store.RegisterStore :=
  store (poll_register "plc-001" temperature (ReadOk [250] 0) (mkPollState ∅ [])).

Definition temperature_input : RegisterConfig :=
  mkRegisterConfig "temperature" 40 Input 1 U16 (Some "C") None None.

(** C3 (failing input): the write request task answers [Ok(())] to every
    request, while the device session of an RTU device (no connection)
    would answer [Err("No connection available")] to [write_single]. *)
Theorem write_task_acknowledges_without_device :
  (forall request : WriteRequest, write_task_reply request = Result.Ok tt) /\
  (forall peer : string -> Z -> Z -> option string,
     let dev := mkDeviceConfig "plc-rtu" "RTU PLC"
                  (Rtu "/dev/ttyUSB0" 9600 8 1 "none" 1) 1000 [] in
     write_register peer (client_new dev) 0 100
     = Result.Err "No connection available" /\
     write_task_reply (mkWriteRequest "plc-rtu" 0 100) = Result.Ok tt).
Proof.
  split.
  - intros request. reflexivity.
  - intros peer dev. split; reflexivity.
Qed.

(** C4 (failing input): for a register configured at address 40 as an
    [Input] register, the handler still emits a [WriteRequest] with
    address 0 and does not refuse it. *)
Theorem write_handler_uses_placeholder_address :
  build_write_request (seeded_store temperature_input) "plc-001" "temperature" 100
  = Result.Ok (mkWriteRequest "plc-001" 0 100) /\
  address temperature_input = 40 /\ register_type temperature_input = Input.
Proof. split; [vm_compute; reflexivity | split; reflexivity]. Qed.

Lemma build_write_request_address (register_store : Store.RegisterStore)
    (device_id register_name : string) (value : Z) (req : WriteRequest) :
  build_write_request register_store device_id register_name value = Result.Ok req ->
  req_address req = 0.
Proof.
  unfold build_write_request.
  destruct (register_store !! device_id) as [regs|]; [|discriminate].
  destruct (regs !! register_name); [|discriminate].
  intros H. injection H as <-. reflexivity.
Qed.

(** C5 (counterexample): with the write queue full but its receiver alive,
    the handler is suspended in [send(..).await]; it does not answer 503. *)
Lemma write_queue_full_waits :
  let q := mkWriteQueue 100 100 false in
  write_register_handler (seeded_store temperature_input) "plc-001" "temperature"
    100 q ReplyTimeout = AwaitingQueue /\
  (forall body, write_register_handler (seeded_store temperature_input) "plc-001"
     "temperature" 100 q ReplyTimeout <> RespondErr 503 body).
Proof.
  intros q.
  assert (H : write_register_handler (seeded_store temperature_input) "plc-001"
                "temperature" 100 q ReplyTimeout = AwaitingQueue)
    by (vm_compute; reflexivity).
  split; [exact H|]. intros body. rewrite H. discriminate.
Qed.

(** C5 (amended): for a request the handler accepts (device and register
    present), 503 exactly when the write queue's receiver is closed; a full
    but open queue makes the handler wait; once queued, a timeout gives 504,
    a dropped reply channel 500, and a Modbus error [e] gives 502 with [e]
    as details. *)
Theorem write_handler_status_mapping (register_store : Store.RegisterStore)
    (device_id register_name : string) (value : Z) (req : WriteRequest)
    (Hreq : build_write_request register_store device_id register_name value
            = Result.Ok req)
    (q : WriteQueue) (reply : ReplyOutcome) :
  let out := write_register_handler register_store device_id register_name value q reply in
  (receiver_closed q = true ->
     out = RespondErr 503 (mkApiError "Write service unavailable" 503
                             (Some "The Modbus write handler is not running"))) /\
  (receiver_closed q = false -> (capacity q <= queued q)%nat -> out = AwaitingQueue) /\
  (receiver_closed q = false -> (queued q < capacity q)%nat ->
     (reply = ReplyTimeout ->
        out = RespondErr 504 (mkApiError "Write timeout" 504
                (Some "The Modbus device did not respond in time"))) /\
     (reply = ReplyDropped ->
        out = RespondErr 500 (mkApiError "Write failed" 500
                (Some "Response channel closed unexpectedly"))) /\
     (forall e, reply = Reply (Result.Err e) ->
        out = RespondErr 502 (mkApiError "Modbus write failed" 502 (Some e)))).
Proof.
  intros out. unfold out, write_register_handler, mpsc_send. rewrite Hreq.
  split; [intros ->; reflexivity|].
  split.
  - intros -> Hfull. simpl.
    destruct (Nat.ltb_spec (queued q) (capacity q)); [lia|reflexivity].
  - intros -> Hfree. simpl.
    destruct (Nat.ltb_spec (queued q) (capacity q)); [|lia].
    split; [intros ->; reflexivity|].
    split; [intros ->; reflexivity|].
    intros e ->. reflexivity.
Qed.

Lemma write_handler_status_mapping_witness :
  let st := seeded_store temperature_input in
  build_write_request st "plc-001" "temperature" 100
    = Result.Ok (mkWriteRequest "plc-001" 0 100) /\
  write_register_handler st "plc-001" "temperature" 100 (mkWriteQueue 0 100 false)
    (Reply (Result.Err "Modbus write error: illegal data address"))
  = RespondErr 502 (mkApiError "Modbus write failed" 502
                      (Some "Modbus write error: illegal data address")).
Proof.
  intros st.
  assert (Hreq : build_write_request st "plc-001" "temperature" 100
                 = Result.Ok (mkWriteRequest "plc-001" 0 100))
    by (vm_compute; reflexivity).
  split; [exact Hreq|].
  destruct (write_handler_status_mapping st "plc-001" "temperature" 100 _ Hreq
              (mkWriteQueue 0 100 false)
              (Reply (Result.Err "Modbus write error: illegal data address")))
    as [_ [_ H]].
  destruct (H eq_refl ltac:(simpl; lia)) as [_ [_ H502]].
  exact (H502 _ eq_refl).
Defined.

End WriteFacts.

Module AuthFacts.

Import Auth.

Lemma ends_with_star_iff (s : string) :
  ends_with s "*" = true <-> exists pre, s = String.append pre "*".
Proof.
  induction s as [|a s IH].
  - split; [discriminate|]. intros [[|? ?] H]; discriminate.
  - split.
    + simpl. destruct s as [|b s'].
      * intros H. apply Ascii.eqb_eq in H. subst a. exists EmptyString. reflexivity.
      * intros H. destruct (proj1 IH H) as [pre Hpre].
        exists (String a pre). rewrite Hpre. reflexivity.
    + intros [pre Hpre]. destruct pre as [|c pre'].
      * simpl in Hpre. injection Hpre as -> ->. reflexivity.
      * simpl in Hpre. injection Hpre as -> Hs. simpl.
        destruct s as [|b s'].
        -- destruct pre'; discriminate.
        -- apply IH. exists pre'. exact Hs.
Qed.

Lemma length_append_star (pre : string) :
  String.length (String.append pre "*") = S (String.length pre).
Proof. induction pre as [|a pre IH]; simpl; [reflexivity|rewrite IH; reflexivity]. Qed.

Lemma substring_append_prefix (pre x : string) :
  substring 0 (String.length pre) (String.append pre x) = pre.
Proof.
  induction pre as [|a pre IH]; simpl.
  - destruct x; reflexivity.
  - rewrite IH. reflexivity.
Qed.

Lemma strip_star (pre : string) :
  substring 0 (String.length (String.append pre "*") - 1) (String.append pre "*") = pre.
Proof.
  rewrite length_append_star. simpl. rewrite Nat.sub_0_r.
  apply substring_append_prefix.
Qed.

Lemma prefix_iff (pre path : string) :
  String.prefix pre path = true <-> exists rest, path = String.append pre rest.
Proof.
  revert path. induction pre as [|a pre IH]; intros path.
  - split; [intros _; exists path; reflexivity|destruct path; reflexivity].
  - destruct path as [|b path]; simpl.
    + split; [discriminate|]. intros [rest H]. discriminate.
    + destruct (Ascii.ascii_dec a b) as [<-|Hne].
      * rewrite IH. split; intros [rest H]; exists rest.
        -- rewrite H. reflexivity.
        -- injection H as H. exact H.
      * split; [discriminate|]. intros [rest H]. injection H as H. congruence.
Qed.

(** One exclusion entry, as [is_excluded_path] tests it, is the rule of
    the specification. *)
Lemma entry_test_iff (p path : string) :
  (if ends_with p "*" then String.prefix (substring 0 (String.length p - 1) p) path
   else String.eqb path p) = true <-> entry_admits p path.
Proof.
  unfold entry_admits.
  destruct (ends_with p "*") eqn:E.
  - destruct (proj1 (ends_with_star_iff p) E) as [pre ->].
    rewrite strip_star, prefix_iff. split.
    + intros [rest Hr]. left. exists pre, rest. split; [reflexivity|exact Hr].
    + intros [[pre' [rest [Hp Hr]]] | [Hno _]].
      * exists rest. rewrite Hr.
        rewrite <- (strip_star pre), <- (strip_star pre'), Hp. reflexivity.
      * exfalso. apply Hno. exists pre. reflexivity.
  - rewrite String.eqb_eq. split.
    + intros ->. right. split; [|reflexivity].
      intros Hs. apply (proj2 (ends_with_star_iff p)) in Hs. congruence.
    + intros [[pre [rest [Hp _]]] | [_ Hq]]; [|exact Hq].
      exfalso. assert (ends_with p "*" = true) by (apply ends_with_star_iff; eauto).
      congruence.
Qed.

Lemma is_excluded_path_iff (config : AuthConfig) (path : string) :
  is_excluded_path config path = true <->
  exists p, In p (exclude_paths config) /\ entry_admits p path.
Proof.
  unfold is_excluded_path. rewrite existsb_exists.
  split; intros [p [Hin Hp]]; exists p; split; try exact Hin;
    apply entry_test_iff; exact Hp.
Qed.

(** C8: with auth enabled, a request without a key is admitted exactly when
    some exclusion entry admits its path; a request on any other path whose
    [X-API-Key] is missing or not a configured key gets 401 with error
    ["unauthorized"]. *)
Theorem api_key_auth_spec (config : AuthConfig) (Henabled : enabled config = true) :
  (forall path : string,
     api_key_auth config path None = RunNext <->
     exists p, In p (exclude_paths config) /\ entry_admits p path) /\
  (forall (path : string) (header : option string),
     ~ (exists p, In p (exclude_paths config) /\ entry_admits p path) ->
     (header = None \/ exists k, header = Some k /\ ~ In k (api_keys config)) ->
     exists message,
       api_key_auth config path header = Reject 401 (mkAuthError "unauthorized" message)).
Proof.
  split.
  - intros path. rewrite <- is_excluded_path_iff.
    unfold api_key_auth. rewrite Henabled. simpl.
    destruct (is_excluded_path config path); split; try reflexivity; discriminate.
  - intros path header Hnot Hkey.
    assert (Hex : is_excluded_path config path = false).
    { destruct (is_excluded_path config path) eqn:E; [|reflexivity].
      exfalso. apply Hnot, is_excluded_path_iff, E. }
    unfold api_key_auth. rewrite Henabled, Hex. simpl.
    destruct Hkey as [-> | [k [-> Hk]]]; simpl.
    + eexists. reflexivity.
    + destruct (header_to_str k) as [key|] eqn:Hs.
      * assert (key = k) as ->.
        { unfold header_to_str in Hs. destruct forallb; congruence. }
        assert (Hv : is_valid_key config k = false).
        { unfold is_valid_key. apply not_true_iff_false. rewrite existsb_exists.
          intros [k' [Hin Heq]]. apply String.eqb_eq in Heq. subst k'. contradiction. }
        rewrite Hv. eexists. reflexivity.
      * eexists. reflexivity.
Qed.

Lemma api_key_auth_spec_witness :
  let config := mkAuthConfig true ["secret-key"] ["/health"; "/public/*"] in
  enabled config = true /\
  api_key_auth config "/public/assets/x" None = RunNext /\
  exists message,
    api_key_auth config "/api/devices" None = Reject 401 (mkAuthError "unauthorized" message).
Proof.
  intros config.
  destruct (api_key_auth_spec config eq_refl) as [Hadm Hrej].
  split; [reflexivity|split].
  - apply Hadm. exists "/public/*". split; [simpl; auto|].
    left. exists "/public/", "assets/x". split; reflexivity.
  - apply Hrej; [|left; reflexivity].
    intros Hex. apply is_excluded_path_iff in Hex. vm_compute in Hex. discriminate.
Defined.

End AuthFacts.

Module WsFacts.

Import Ws Api.

Lemma should_send_iff (subscribed : option (list string)) (u : RegisterUpdate) :
  should_send subscribed u = true <-> filter_matches (denotes subscribed) (device_id u).
Proof.
  destruct subscribed as [[|d ds]|]; simpl.
  - split; [discriminate|contradiction].
  - rewrite orb_true_iff, String.eqb_eq, existsb_exists.
    split.
    + intros [-> | [x [Hx Heq]]]; [left; reflexivity|].
      apply String.eqb_eq in Heq. subst x. right. exact Hx.
    + intros [-> | Hin]; [left; reflexivity|].
      right. exists (device_id u). split; [exact Hin|apply String.eqb_refl].
  - split; intros _; [exact I|reflexivity].
Qed.

(** C9: the filter starts as [All]; a running session's [subscribe] sets it
    to [All] for a missing/null list and to the given set otherwise;
    [unsubscribe] sets it to the empty set; a bus update is sent to the
    client exactly when its [device_id] matches the current filter. *)
Theorem ws_subscription_filter :
  denotes (subscribed_devices session_start) = All /\
  (forall (s : Session) (devices : option (list string)), running s = true ->
     denotes (subscribed_devices (step s (FromClient (ClientText (inl (Subscribe devices))))))
     = filter_of_subscribe devices) /\
  (forall s : Session, running s = true ->
     denotes (subscribed_devices (step s (FromClient (ClientText (inl Unsubscribe)))))
     = Only []) /\
  (forall (s : Session) (u : RegisterUpdate), running s = true ->
     (filter_matches (denotes (subscribed_devices s)) (device_id u) ->
        sent (step s (FromBus (BusUpdate u))) = sent s ++ [TextFrame (Update u)]) /\
     (~ filter_matches (denotes (subscribed_devices s)) (device_id u) ->
        sent (step s (FromBus (BusUpdate u))) = sent s)).
Proof.
  split; [reflexivity|].
  split; [intros s devices Hrun; unfold step; rewrite Hrun; destruct devices; reflexivity|].
  split; [intros s Hrun; unfold step; rewrite Hrun; reflexivity|].
  intros s u Hrun. unfold step. rewrite Hrun. simpl. split.
  - intros Hm. apply should_send_iff in Hm. rewrite Hm. reflexivity.
  - intros Hm. destruct (should_send (subscribed_devices s) u) eqn:E; [|reflexivity].
    exfalso. apply Hm, should_send_iff, E.
Qed.

Lemma ws_subscription_filter_witness :
  let u := mkRegisterUpdate "plc-002" "pressure" 1%float [1] None 0 in
  let s := step session_start (FromClient (ClientText (inl (Subscribe (Some ["plc-001"]))))) in
  running s = true /\
  ~ filter_matches (denotes (subscribed_devices s)) (device_id u) /\
  sent (step s (FromBus (BusUpdate u))) = sent s.
Proof.
  intros u s.
  assert (Hrun : running s = true) by reflexivity.
  assert (Hnm : ~ filter_matches (denotes (subscribed_devices s)) (device_id u)).
  { simpl. intros [H|[]]. discriminate. }
  split; [exact Hrun|split; [exact Hnm|]].
  destruct ws_subscription_filter as [_ [_ [_ H]]].
  exact (proj2 (H s u Hrun) Hnm).
Defined.

End WsFacts.

(* ------------------------------------------------------------------------- *)
(** ** Further properties of the code *)

Module DecoderRoundTrip.

Import Reader.

(** Splitting a [u32] into [(v >> 16) as u16] and [v as u16] and joining
    the words back as [convert_value] does gives [v] again. *)
Lemma word_pair_split (v : Z) (rest : list Z) : 0 <= v < 2 ^ 32 ->
  word_pair (Z.shiftr v 16 :: Z.land v 65535 :: rest) = Some v.
Proof.
  intros Hv. simpl.
  rewrite Z.shiftr_div_pow2 by lia.
  change 65535 with (Z.ones 16). rewrite Z.land_ones by lia.
  assert (Hq : 0 <= v / 2 ^ 16 < 2 ^ 16).
  { split; [apply Z.div_pos; lia|]. apply Z.div_lt_upper_bound; lia. }
  assert (Hr : 0 <= v mod 2 ^ 16 < 2 ^ 16) by (apply Z.mod_pos_bound; lia).
  rewrite DecoderFacts.u32_shl_16_small by exact Hq.
  change (Z.lor (Z.shiftl (v / 2 ^ 16) 16) (v mod 2 ^ 16))
    with (SpecDecode.hi_lo (v / 2 ^ 16) (v mod 2 ^ 16)).
  rewrite DecoderFacts.hi_lo_arith by lia.
  f_equal. rewrite Z.mul_comm. symmetry. apply Z.div_mod. lia.
Qed.

(** An [i16] stored as its [u16] bit pattern decodes, as [I16], to itself. *)
Theorem i16_round_trip (x : Z) : -2 ^ 15 <= x < 2 ^ 15 ->
  raw_value [x mod 2 ^ 16] I16 = f64_of_Z x.
Proof.
  intros Hx. simpl. f_equal. unfold as_signed. change (16 - 1) with 15.
  rewrite Zplus_mod_idemp_l. rewrite Z.mod_small by lia. lia.
Qed.

Lemma i16_round_trip_witness :
  (-2 ^ 15 <= -400 < 2 ^ 15) /\ raw_value [(-400) mod 2 ^ 16] I16 = f64_of_Z (-400).
Proof.
  assert (H : -2 ^ 15 <= -400 < 2 ^ 15) by lia.
  split; [exact H | exact (i16_round_trip (-400) H)].
Defined.

(** A [u32] split high word first decodes, as [U32], to itself. *)
Theorem u32_round_trip (v : Z) : 0 <= v < 2 ^ 32 ->
  raw_value [Z.shiftr v 16; Z.land v 65535] U32 = f64_of_Z v.
Proof. intros Hv. unfold raw_value. rewrite (word_pair_split v [] Hv). reflexivity. Qed.

Lemma u32_round_trip_witness :
  (0 <= 1000000 < 2 ^ 32) /\
  raw_value [Z.shiftr 1000000 16; Z.land 1000000 65535] U32 = f64_of_Z 1000000.
Proof.
  assert (H : 0 <= 1000000 < 2 ^ 32) by lia.
  split; [exact H | exact (u32_round_trip 1000000 H)].
Defined.

(** An [i32] stored as its [u32] bit pattern, high word first, decodes, as
    [I32], to itself. *)
Theorem i32_round_trip (x : Z) : -2 ^ 31 <= x < 2 ^ 31 ->
  let u := x mod 2 ^ 32 in
  raw_value [Z.shiftr u 16; Z.land u 65535] I32 = f64_of_Z x.
Proof.
  intros Hx u. unfold raw_value.
  rewrite (word_pair_split u []) by (apply Z.mod_pos_bound; lia).
  f_equal. unfold u, as_signed. change (32 - 1) with 31.
  rewrite Zplus_mod_idemp_l. rewrite Z.mod_small by lia. lia.
Qed.

Lemma i32_round_trip_witness :
  (-2 ^ 31 <= -100 < 2 ^ 31) /\
  raw_value [Z.shiftr ((-100) mod 2 ^ 32) 16; Z.land ((-100) mod 2 ^ 32) 65535] I32
  = f64_of_Z (-100).
Proof.
  assert (H : -2 ^ 31 <= -100 < 2 ^ 31) by lia.
  split; [exact H | exact (i32_round_trip (-100) H)].
Defined.

End DecoderRoundTrip.

Module ReadFacts.

Import Result Modbus Bridge.

(** Coil and discrete-input reads come back as words that are all 0 or 1,
    one per bit the device returned, in order. *)
Theorem bit_reads_are_0_or_1 (peer : Peer) (client : Write.ModbusClient)
    (register : RegisterConfig) (raw : list Z) :
  (register_type register = Coil \/ register_type register = Discrete) ->
  read_registers peer client register = Ok raw ->
  (exists bits,
     (read_coils peer (address register) (count register) = Ok bits \/
      read_discrete peer (address register) (count register) = Ok bits) /\
     raw = map bool_word bits) /\
  Forall (fun w => w = 0 \/ w = 1) raw.
Proof.
  intros Hty Hread. unfold read_registers in Hread.
  destruct (Write.context client); [|discriminate].
  assert (Hbits : exists bits,
    (read_coils peer (address register) (count register) = Ok bits \/
     read_discrete peer (address register) (count register) = Ok bits) /\
    raw = map bool_word bits).
  { destruct Hty as [Hty|Hty]; rewrite Hty in Hread.
    - destruct (read_coils peer (address register) (count register)) as [bits|e] eqn:E;
        simpl in Hread; [|discriminate].
      injection Hread as <-. exists bits. auto.
    - destruct (read_discrete peer (address register) (count register)) as [bits|e] eqn:E;
        simpl in Hread; [|discriminate].
      injection Hread as <-. exists bits. auto. }
  split; [exact Hbits|].
  destruct Hbits as [bits [_ ->]].
  apply List.Forall_forall. intros w Hw. apply in_map_iff in Hw.
  destruct Hw as [b [<- _]]. destruct b; simpl; auto.
Qed.

Lemma bit_reads_are_0_or_1_witness :
  let peer := mkPeer (fun _ _ => Err "x") (fun _ _ => Err "x")
                     (fun _ _ => Ok [true; false; true]) (fun _ _ => Err "x") in
  let client := Write.mkModbusClient "plc-001" (Some "192.168.1.10") in
  let register := mkRegisterConfig "valves" 0 Coil 3 Bool None None None in
  (register_type register = Coil \/ register_type register = Discrete) /\
  read_registers peer client register = Ok [1; 0; 1] /\
  Forall (fun w => w = 0 \/ w = 1) [1; 0; 1].
Proof.
  intros peer client register.
  assert (Ht : register_type register = Coil \/ register_type register = Discrete)
    by (left; reflexivity).
  assert (Hr : read_registers peer client register = Ok [1; 0; 1]) by reflexivity.
  split; [exact Ht|split; [exact Hr|]].
  exact (proj2 (bit_reads_are_0_or_1 peer client register _ Ht Hr)).
Defined.

(** A [Bool] coil without scale or offset reads as [1.0] exactly when the
    first coil returned is set, and [0.0] otherwise. *)
Theorem coil_bool_value (peer : Peer) (client : Write.ModbusClient)
    (register : RegisterConfig) (raw : list Z) :
  register_type register = Coil -> data_type register = Bool ->
  scale register = None -> offset register = None ->
  read_registers peer client register = Ok raw ->
  exists bits, read_coils peer (address register) (count register) = Ok bits /\
    Reader.convert_value raw register =
      (match bits with true :: _ => 1 | _ => 0 end)%float.
Proof.
  intros Hty Hdt Hs Ho Hread. unfold read_registers in Hread.
  destruct (Write.context client); [|discriminate].
  rewrite Hty in Hread.
  destruct (read_coils peer (address register) (count register)) as [bits|e];
    simpl in Hread; [|discriminate].
  injection Hread as <-. exists bits. split; [reflexivity|].
  unfold Reader.convert_value. rewrite Hdt, Hs, Ho.
  destruct bits as [|[|] rest]; vm_compute; reflexivity.
Qed.

Lemma coil_bool_value_witness :
  let peer := mkPeer (fun _ _ => Err "x") (fun _ _ => Err "x")
                     (fun _ _ => Ok [true]) (fun _ _ => Err "x") in
  let client := Write.mkModbusClient "plc-001" (Some "192.168.1.10") in
  let register := mkRegisterConfig "pump" 7 Coil 1 Bool None None None in
  read_registers peer client register = Ok [1] /\
  exists bits, read_coils peer 7 1 = Ok bits /\
    Reader.convert_value [1] register = (match bits with true :: _ => 1 | _ => 0 end)%float.
Proof.
  intros peer client register.
  assert (Hr : read_registers peer client register = Ok [1]) by reflexivity.
  split; [exact Hr|].
  exact (coil_bool_value peer client register [1] eq_refl eq_refl eq_refl eq_refl Hr).
Defined.

Lemma poll_registers_all_errors (device_id : string) (regs : list RegisterConfig)
    (io : RegisterConfig -> ReadResult) (st : PollState) :
  (forall r, In r regs -> exists e, io r = ReadErr e) ->
  poll_registers device_id regs io st = st.
Proof.
  revert st. induction regs as [|r regs IH]; intros st Herr; [reflexivity|].
  destruct (Herr r (or_introl eq_refl)) as [e He].
  unfold poll_registers. simpl. rewrite He. simpl.
  apply IH. intros r' Hr'. apply Herr. right. exact Hr'.
Qed.

(** An RTU device is never read ([ModbusClient::new] leaves it without a
    connection): every poll cycle leaves the store and the bus as they
    were, so it never appears in the store. *)
Theorem rtu_device_never_polled (config : DeviceConfig) (peer : Peer)
    (clock : RegisterConfig -> Z) (st : PollState)
    (port : string) (baud_rate data_bits stop_bits : Z) (parity : string) (unit_id : Z) :
  connection config = Rtu port baud_rate data_bits stop_bits parity unit_id ->
  poll_cycle config (poll_io peer (Write.client_new config) clock) st = st.
Proof.
  intros Hconn. unfold poll_cycle. apply poll_registers_all_errors.
  intros r _. exists "No connection available".
  unfold poll_io, read_registers, Write.client_new. simpl. rewrite Hconn. reflexivity.
Qed.

Lemma rtu_device_never_polled_witness :
  let config := mkDeviceConfig "plc-rtu" "RTU PLC"
                  (Rtu "/dev/ttyUSB0" 9600 8 1 "none" 1) 1000
                  [mkRegisterConfig "temperature" 0 Holding 1 U16 None None None] in
  let peer := mkPeer (fun _ _ => Ok [250]) (fun _ _ => Ok [250])
                     (fun _ _ => Ok [true]) (fun _ _ => Ok [true]) in
  connection config = Rtu "/dev/ttyUSB0" 9600 8 1 "none" 1 /\
  poll_cycle config (poll_io peer (Write.client_new config) (fun _ => 0)) (mkPollState ∅ [])
  = mkPollState ∅ [].
Proof.
  intros config peer.
  split; [reflexivity|].
  exact (rtu_device_never_polled config peer (fun _ => 0) (mkPollState ∅ [])
           "/dev/ttyUSB0" 9600 8 1 "none" 1 eq_refl).
Defined.

End ReadFacts.

Module PollFacts.

Import Bridge Observe.

(** The two poll loops, [start_polling] of [reader.rs] and
    [start_polling_with_broadcast] of [bridge.rs], put the same values in
    the store over any sequence of registers and read results. *)
Theorem reader_loop_same_store (device_id : string) (regs : list RegisterConfig)
    (io : RegisterConfig -> ReadResult) (st : PollState) :
  store (poll_registers device_id regs io st)
  = fold_left (fun s r => ReaderLoop.poll_register device_id r (io r) s) regs (store st).
Proof.
  revert st. induction regs as [|r regs IH]; intros st; [reflexivity|].
  unfold poll_registers in *. simpl. rewrite IH. f_equal.
  destruct (io r); reflexivity.
Qed.

(** A device's poll cycle never touches the entries of other devices. *)
Theorem poll_other_device_untouched (device_id other : string)
    (regs : list RegisterConfig) (io : RegisterConfig -> ReadResult) (st : PollState) :
  device_id <> other ->
  store (poll_registers device_id regs io st) !! other = store st !! other.
Proof.
  intros Hne. revert st. induction regs as [|r regs IH]; intros st; [reflexivity|].
  unfold poll_registers in *. simpl. rewrite IH.
  destruct (io r); simpl; [|reflexivity].
  unfold Store.commit. apply lookup_insert_ne. exact Hne.
Qed.

Lemma poll_other_device_untouched_witness :
  "plc-001" <> "plc-002" /\
  store (poll_registers "plc-001" [mkRegisterConfig "t" 0 Holding 1 U16 None None None]
           (fun _ => ReadOk [1] 5) (mkPollState ∅ [])) !! "plc-002"
  = store (mkPollState ∅ []) !! "plc-002".
Proof.
  assert (H : "plc-001" <> "plc-002") by discriminate.
  split; [exact H|].
  exact (poll_other_device_untouched "plc-001" "plc-002" _ _ (mkPollState ∅ []) H).
Defined.

(** Within a cycle, exactly the successful reads are broadcast, one update
    each, in configured register order. *)
Theorem poll_broadcast_order (device_id : string) (regs : list RegisterConfig)
    (io : RegisterConfig -> ReadResult) (st : PollState) :
  published (poll_registers device_id regs io st)
  = published st ++ flat_map (fun r => update_of device_id r (io r)) regs.
Proof.
  revert st. induction regs as [|r regs IH]; intros st.
  - simpl. rewrite app_nil_r. reflexivity.
  - unfold poll_registers in *. simpl. rewrite IH.
    destruct (io r); simpl; [rewrite <- app_assoc; reflexivity|reflexivity].
Qed.

Lemma poll_register_other_name (device_id n : string) (register : RegisterConfig)
    (res : ReadResult) (st : PollState) :
  name register <> n ->
  (store (poll_register device_id register res st) !! device_id ≫= lookup n)
  = (store st !! device_id ≫= lookup n).
Proof.
  intros Hne. destruct res; simpl; [|reflexivity].
  unfold Store.commit. rewrite lookup_insert_eq. simpl.
  rewrite lookup_insert_ne by exact Hne.
  destruct (store st !! device_id); reflexivity.
Qed.

Lemma poll_registers_other_name (device_id n : string) (regs : list RegisterConfig)
    (io : RegisterConfig -> ReadResult) (st : PollState) :
  ~ In n (map name regs) ->
  (store (poll_registers device_id regs io st) !! device_id ≫= lookup n)
  = (store st !! device_id ≫= lookup n).
Proof.
  revert st. induction regs as [|r regs IH]; intros st Hn; [reflexivity|].
  unfold poll_registers in *. simpl. rewrite IH by (intros H; apply Hn; right; exact H).
  apply poll_register_other_name. intros H. apply Hn. left. exact H.
Qed.

(** With distinct register names, a register whose read succeeds in a
    cycle holds, after the cycle, the value decoded from that read. *)
Theorem poll_successful_read_stored (device_id : string) (regs : list RegisterConfig)
    (io : RegisterConfig -> ReadResult) (st : PollState)
    (register : RegisterConfig) (raw_values : list Z) (now : Z) :
  NoDup (map name regs) -> In register regs -> io register = ReadOk raw_values now ->
  (store (poll_registers device_id regs io st) !! device_id ≫= lookup (name register))
  = Some (Store.mkRegisterValue (name register) raw_values
            (Reader.convert_value raw_values register) (unit register) now).
Proof.
  revert st. induction regs as [|r regs IH]; intros st Hnd Hin Hio; [destruct Hin|].
  simpl in Hnd. apply NoDup_cons in Hnd as [Hnot Hnd].
  destruct Hin as [->|Hin].
  - unfold poll_registers. simpl. fold (poll_registers device_id regs io
      (poll_register device_id register (io register) st)).
    rewrite poll_registers_other_name
      by (intros H; apply Hnot; apply list_elem_of_In; exact H).
    rewrite Hio. simpl. unfold Store.commit. rewrite lookup_insert_eq. simpl.
    rewrite lookup_insert_eq. reflexivity.
  - unfold poll_registers. simpl.
    exact (IH _ Hnd Hin Hio).
Qed.

Lemma poll_successful_read_stored_witness :
  let t := mkRegisterConfig "temperature" 0 Holding 1 U16 None None None in
  let p := mkRegisterConfig "pressure" 1 Holding 1 U16 None None None in
  let io := fun r : RegisterConfig =>
              if String.eqb (name r) "pressure" then ReadErr "timeout" else ReadOk [250] 9 in
  NoDup (map name [t; p]) /\ In t [t; p] /\ io t = ReadOk [250] 9 /\
  (store (poll_registers "plc-001" [t; p] io (mkPollState ∅ [])) !! "plc-001" ≫= lookup (name t))
  = Some (Store.mkRegisterValue "temperature" [250] (Reader.convert_value [250] t) None 9).
Proof.
  intros t p io.
  assert (Hnd : NoDup (map name [t; p])).
  { apply (bool_decide_unpack _). vm_compute. reflexivity. }
  assert (Hin : In t [t; p]) by (left; reflexivity).
  assert (Hio : io t = ReadOk [250] 9) by reflexivity.
  split; [exact Hnd|split; [exact Hin|split; [exact Hio|]]].
  exact (poll_successful_read_stored "plc-001" [t; p] io (mkPollState ∅ []) t [250] 9
           Hnd Hin Hio).
Defined.

End PollFacts.

Module ApiReadFacts.

Import Result Api ApiRead Bridge.

Lemma fold_max_some (ts : list Z) (a : Z) :
  fold_left (fun acc t => match acc with None => Some t | Some m => Some (Z.max m t) end)
            ts (Some a)
  = Some (fold_left Z.max ts a).
Proof.
  revert a. induction ts as [|t ts IH]; intros a; [reflexivity|]. simpl. apply IH.
Qed.

Lemma fold_max_bounds (ts : list Z) (a : Z) :
  a <= fold_left Z.max ts a /\ (forall t, In t ts -> t <= fold_left Z.max ts a) /\
  (fold_left Z.max ts a = a \/ In (fold_left Z.max ts a) ts).
Proof.
  revert a. induction ts as [|t ts IH]; intros a.
  - simpl. split; [lia|split; [intros _ []|left; reflexivity]].
  - simpl. destruct (IH (Z.max a t)) as [H1 [H2 H3]].
    split; [lia|split].
    + intros t' [<-|Ht]; [lia|apply H2, Ht].
    + destruct H3 as [H3|H3]; [|right; right; exact H3].
      rewrite H3. destruct (Z.max_spec a t) as [[_ ->]|[_ ->]];
        [right; left; reflexivity|left; reflexivity].
Qed.

Lemma bind_singleton_map {A B} (f : A -> B) (l : list A) :
  (l ≫= fun x => [f x]) = map f l.
Proof. induction l as [|x l IH]; [reflexivity|]. simpl. f_equal. Qed.

Lemma in_register_timestamps (regs : gmap string Store.RegisterValue) (t : Z) :
  In t (map Store.timestamp (map_to_list regs).*2)
  <-> exists k r, regs !! k = Some r /\ Store.timestamp r = t.
Proof.
  rewrite in_map_iff. split.
  - intros [r [Ht Hin]]. apply in_map_iff in Hin as [[k r'] [Hr Hin]]. simpl in Hr. subst r'.
    exists k, r. split; [|exact Ht].
    apply elem_of_map_to_list, list_elem_of_In, Hin.
  - intros [k [r [Hk Ht]]]. exists r. split; [exact Ht|].
    apply in_map_iff. exists (k, r). split; [reflexivity|].
    apply list_elem_of_In, elem_of_map_to_list, Hk.
Qed.

(** [list_devices]: a device's [last_update] is absent exactly when it has
    no register, and otherwise it is the latest timestamp among its
    registers, attained by one of them. *)
Theorem summary_last_update (device_id : string) (regs : gmap string Store.RegisterValue) :
  (last_update (summarize device_id regs) = None <-> regs = ∅) /\
  (forall m, last_update (summarize device_id regs) = Some m ->
     (forall k r, regs !! k = Some r -> Store.timestamp r <= m) /\
     exists k r, regs !! k = Some r /\ Store.timestamp r = m).
Proof.
  unfold summarize. cbn [last_update]. rewrite (bind_singleton_map Store.timestamp).
  pose proof (in_register_timestamps regs) as Hin.
  destruct (map Store.timestamp (map_to_list regs).*2) as [|t ts] eqn:Hts.
  - split.
    + split; [intros _|reflexivity].
      apply map_to_list_empty_iff.
      destruct (map_to_list regs); [reflexivity|discriminate].
    + intros m Hm. discriminate.
  - unfold max_timestamp. simpl. rewrite fold_max_some.
    destruct (fold_max_bounds ts t) as [H1 [H2 H3]].
    split.
    + split; [discriminate|]. intros ->. rewrite map_to_list_empty in Hts. discriminate.
    + intros m Hm. injection Hm as <-. split.
      * intros k r Hk. assert (Hr : In (Store.timestamp r) (t :: ts))
          by (apply Hin; exists k, r; split; [exact Hk|reflexivity]).
        destruct Hr as [<-|Hr]; [exact H1|apply H2, Hr].
      * apply Hin. destruct H3 as [->|H3]; [left; reflexivity|right; exact H3].
Qed.

Lemma summary_last_update_witness :
  let r1 := Store.mkRegisterValue "temperature" [250] 250%float None 7 in
  let r2 := Store.mkRegisterValue "pressure" [3] 3%float None 9 in
  let regs := <["pressure" := r2]> (<["temperature" := r1]> ∅) in
  last_update (summarize "plc-001" regs) = Some 9 /\
  ((forall k r, regs !! k = Some r -> Store.timestamp r <= 9) /\
   exists k r, regs !! k = Some r /\ Store.timestamp r = 9).
Proof.
  intros r1 r2 regs.
  assert (H : last_update (summarize "plc-001" regs) = Some 9) by (vm_compute; reflexivity).
  split; [exact H|].
  exact (proj2 (summary_last_update "plc-001" regs) 9 H).
Defined.

(** [list_devices] over any store the poll loops can produce: [count] is
    the number of devices, each device is listed once, with at least one
    register and a [last_update]. *)
Theorem list_devices_reachable (st : PollState) :
  reachable st ->
  snd (list_devices (store st)) = size (store st) /\
  NoDup (map summary_id (fst (list_devices (store st)))) /\
  (forall s, In s (fst (list_devices (store st))) ->
     (1 <= register_count s)%nat /\ exists m, last_update s = Some m).
Proof.
  intros Hreach. unfold list_devices. simpl.
  assert (Hids : map summary_id (map (fun '(id, regs) => summarize id regs)
                                   (map_to_list (store st)))
                 = (map_to_list (store st)).*1).
  { induction (map_to_list (store st)) as [|[k v] l IH]; [reflexivity|].
    simpl. rewrite IH. reflexivity. }
  split; [|split].
  - rewrite length_map. apply length_map_to_list.
  - rewrite Hids. apply NoDup_fst_map_to_list.
  - intros s Hs. apply in_map_iff in Hs as [[d regs] [<- Hin]].
    apply list_elem_of_In, elem_of_map_to_list in Hin.
    destruct (StoreFacts.reachable_device_maps st Hreach d regs Hin) as [Hne _].
    split.
    + simpl. destruct (size regs) eqn:Hsz; [|lia].
      exfalso. apply Hne. apply map_size_empty_iff, Hsz.
    + destruct (last_update (summarize d regs)) as [m|] eqn:Hm; [eauto|].
      exfalso. apply Hne. apply (proj1 (summary_last_update d regs)), Hm.
Qed.

Lemma list_devices_reachable_witness :
  let reg := mkRegisterConfig "temperature" 0 Holding 1 U16 None None None in
  let st := poll_register "plc-001" reg (ReadOk [250] 1700000000) (mkPollState ∅ []) in
  reachable st /\
  snd (list_devices (store st)) = size (store st) /\
  NoDup (map summary_id (fst (list_devices (store st)))) /\
  (forall s, In s (fst (list_devices (store st))) ->
     (1 <= register_count s)%nat /\ exists m, last_update s = Some m).
Proof.
  intros reg st.
  assert (Hr : reachable st) by (apply reach_step, reach_init).
  split; [exact Hr|].
  exact (list_devices_reachable st Hr).
Defined.

(** [get_register] over any store the poll loops can produce: the value
    returned for a register name carries that name. *)
Theorem get_register_reachable_name (st : PollState) (device_id register_name : string)
    (rv : Store.RegisterValue) :
  reachable st ->
  get_register (store st) device_id register_name = Ok rv ->
  Store.name rv = register_name.
Proof.
  intros Hreach. revert device_id register_name rv.
  induction Hreach as [|d register res st Hreach IH];
    intros device_id register_name rv Hget.
  - discriminate.
  - destruct res as [raw_values now|e]; simpl in *; [|eauto].
    unfold get_register, Store.commit in *.
    destruct (decide (d = device_id)) as [<-|Hne].
    + rewrite lookup_insert_eq in Hget.
      destruct (decide (name register = register_name)) as [<-|Hn].
      * rewrite lookup_insert_eq in Hget. injection Hget as <-. reflexivity.
      * rewrite lookup_insert_ne in Hget by exact Hn.
        apply (IH d). destruct (store st !! d); simpl in *; [exact Hget|].
        rewrite lookup_empty in Hget. discriminate.
    + rewrite lookup_insert_ne in Hget by exact Hne. exact (IH _ _ _ Hget).
Qed.

Lemma get_register_reachable_name_witness :
  let reg := mkRegisterConfig "temperature" 0 Holding 1 U16 None None None in
  let st := poll_register "plc-001" reg (ReadOk [250] 1700000000) (mkPollState ∅ []) in
  let rv := Store.mkRegisterValue "temperature" [250] 250%float None 1700000000 in
  reachable st /\ get_register (store st) "plc-001" "temperature" = Ok rv /\
  Store.name rv = "temperature".
Proof.
  intros reg st rv.
  assert (Hr : reachable st) by (apply reach_step, reach_init).
  assert (Hg : get_register (store st) "plc-001" "temperature" = Ok rv)
    by (vm_compute; reflexivity).
  split; [exact Hr|split; [exact Hg|]].
  exact (get_register_reachable_name st "plc-001" "temperature" rv Hr Hg).
Defined.

(** A commit is read back by [get_register]; lookups of other devices, and
    of other registers of a device already present, answer as before. *)
Theorem get_register_after_commit (store : Store.RegisterStore) (device_id : string)
    (rv : Store.RegisterValue) (d n : string) :
  get_register (Store.commit device_id rv store) device_id (Store.name rv) = Ok rv /\
  (d <> device_id \/ (n <> Store.name rv /\ is_Some (store !! device_id)) ->
   get_register (Store.commit device_id rv store) d n = get_register store d n).
Proof.
  unfold get_register, Store.commit. split.
  - rewrite !lookup_insert_eq. reflexivity.
  - intros [Hd|[Hn [m Hm]]].
    + rewrite lookup_insert_ne by congruence. reflexivity.
    + destruct (decide (d = device_id)) as [->|Hd].
      * rewrite lookup_insert_eq, Hm. simpl. rewrite lookup_insert_ne by congruence.
        reflexivity.
      * rewrite lookup_insert_ne by congruence. reflexivity.
Qed.

Lemma get_register_after_commit_witness :
  let rv := Store.mkRegisterValue "temperature" [250] 250%float None 7 in
  let s := <["plc-001" := <["pressure" := Store.mkRegisterValue "pressure" [3] 3%float None 5]> ∅]> ∅
             : Store.RegisterStore in
  ("pressure" <> Store.name rv /\ is_Some (s !! "plc-001")) /\
  get_register (Store.commit "plc-001" rv s) "plc-001" "pressure"
  = get_register s "plc-001" "pressure".
Proof.
  intros rv s.
  assert (H : "pressure" <> Store.name rv /\ is_Some (s !! "plc-001"))
    by (split; [discriminate|eexists; reflexivity]).
  split; [exact H|].
  exact (proj2 (get_register_after_commit s "plc-001" rv "plc-001" "pressure") (or_intror H)).
Defined.

End ApiReadFacts.

Module WriteHandlerFacts.

Import Write Api.

(** The [write_register] handler answers 404 when the device or the
    register is unknown to the store, whatever the state of the write queue
    and of the device: the lookups come before anything is queued. *)
Theorem write_handler_lookup_404 (register_store : Store.RegisterStore)
    (device_id register_name : string) (value : Z) (q : WriteQueue) (reply : ReplyOutcome) :
  (register_store !! device_id = None ->
   write_register_handler register_store device_id register_name value q reply
   = RespondErr 404 (mkApiError "Device not found" 404 None)) /\
  (forall registers, register_store !! device_id = Some registers ->
   registers !! register_name = None ->
   write_register_handler register_store device_id register_name value q reply
   = RespondErr 404 (mkApiError "Register not found" 404 None)).
Proof.
  unfold write_register_handler, build_write_request. split.
  - intros ->. reflexivity.
  - intros registers -> ->. reflexivity.
Qed.

Lemma write_handler_lookup_404_witness :
  let st := WriteFacts.seeded_store WriteFacts.temperature_input in
  (forall registers, st !! "plc-001" = Some registers -> registers !! "humidity" = None ->
   write_register_handler st "plc-001" "humidity" 7 (mkWriteQueue 0 100 true) ReplyTimeout
   = RespondErr 404 (mkApiError "Register not found" 404 None)) /\
  (exists registers, st !! "plc-001" = Some registers /\ registers !! "humidity" = None).
Proof.
  intros st. split.
  - exact (proj2 (write_handler_lookup_404 st "plc-001" "humidity" 7
                    (mkWriteQueue 0 100 true) ReplyTimeout)).
  - eexists. split; [reflexivity|vm_compute; reflexivity].
Defined.

(** Every error response of the handler carries its own HTTP status as
    [code], and that status is one of 404, 500, 502, 503, 504; a success
    response is 200 and echoes the device, the register and the value. *)
Theorem write_handler_response_consistent (register_store : Store.RegisterStore)
    (device_id register_name : string) (value : Z) (q : WriteQueue) (reply : ReplyOutcome) :
  (forall status body,
     write_register_handler register_store device_id register_name value q reply
     = RespondErr status body ->
     code body = status /\ In status [404; 500; 502; 503; 504]) /\
  (forall status body,
     write_register_handler register_store device_id register_name value q reply
     = RespondOk status body ->
     status = 200 /\ success body = true /\ resp_device_id body = device_id /\
     resp_register_name body = register_name /\ value_written body = value).
Proof.
  unfold write_register_handler, build_write_request, err_with_details.
  destruct (register_store !! device_id) as [registers|];
    [destruct (registers !! register_name)|].
  - destruct (mpsc_send q);
      [destruct reply as [| |[?|?]]| |];
      split; intros status body H; try discriminate; injection H as <- <-;
      simpl; repeat split; auto 10.
  - split; intros status body H; try discriminate; injection H as <- <-;
      simpl; auto 10.
  - split; intros status body H; try discriminate; injection H as <- <-;
      simpl; auto 10.
Qed.

Lemma write_handler_response_consistent_witness :
  let st := WriteFacts.seeded_store WriteFacts.temperature_input in
  let out := write_register_handler st "plc-001" "temperature" 100
               (mkWriteQueue 0 100 false) (Reply (Result.Ok tt)) in
  out = RespondOk 200 (mkWriteRegisterResponse true "plc-001" "temperature" 100
                          "Register written successfully") /\
  (200 = 200 /\ true = true /\ "plc-001" = "plc-001" /\ "temperature" = "temperature" /\
   100 = 100).
Proof.
  intros st out.
  assert (H : out = RespondOk 200 (mkWriteRegisterResponse true "plc-001" "temperature" 100
                                     "Register written successfully"))
    by (vm_compute; reflexivity).
  split; [exact H|].
  exact (proj2 (write_handler_response_consistent st "plc-001" "temperature" 100
                  (mkWriteQueue 0 100 false) (Reply (Result.Ok tt))) _ _ H).
Defined.

(** The errors of [ModbusClient]: an unconnected client (every RTU device)
    fails every read and every write with "No connection available"; any
    other read error is the device's error behind "Modbus error: ", any
    other write error behind "Modbus write error: ". *)
Theorem client_error_messages (peer : Modbus.Peer)
    (wpeer : string -> Z -> Z -> option string) (client : ModbusClient)
    (register : RegisterConfig) (addr value : Z) (e : string) :
  (Modbus.is_connected client = false ->
     Modbus.read_registers peer client register = Result.Err "No connection available" /\
     write_register wpeer client addr value = Result.Err "No connection available") /\
  (Modbus.read_registers peer client register = Result.Err e ->
     e = "No connection available" \/ exists e', e = String.append "Modbus error: " e') /\
  (write_register wpeer client addr value = Result.Err e ->
     e = "No connection available" \/ exists e', e = String.append "Modbus write error: " e').
Proof.
  unfold Modbus.is_connected, Modbus.read_registers, write_register.
  destruct (context client) as [ctx|].
  - split; [discriminate|]. split.
    + destruct (register_type register); unfold Modbus.map_ok, Modbus.modbus_err;
        [destruct (Modbus.read_holding peer (address register) (count register))
        |destruct (Modbus.read_input peer (address register) (count register))
        |destruct (Modbus.read_coils peer (address register) (count register))
        |destruct (Modbus.read_discrete peer (address register) (count register))];
        intros H; try discriminate; injection H as <-; right; eauto.
    + destruct (wpeer ctx addr value); intros H; [|discriminate].
      injection H as <-. right. eauto.
  - split; [intros _; split; reflexivity|].
    split; intros H; injection H as <-; left; reflexivity.
Qed.

Lemma client_error_messages_witness :
  let dev := Bridge.mkDeviceConfig "plc-rtu" "RTU PLC"
               (Bridge.Rtu "/dev/ttyUSB0" 9600 8 1 "none" 1) 1000 [] in
  let reg := mkRegisterConfig "temperature" 0 Holding 1 U16 None None None in
  let peer := Modbus.mkPeer (fun _ _ => Result.Ok [1]) (fun _ _ => Result.Ok [1])
                (fun _ _ => Result.Ok [true]) (fun _ _ => Result.Ok [true]) in
  Modbus.is_connected (client_new dev) = false /\
  Modbus.read_registers peer (client_new dev) reg = Result.Err "No connection available" /\
  write_register (fun _ _ _ => None) (client_new dev) 0 5
  = Result.Err "No connection available".
Proof.
  intros dev reg peer.
  assert (H : Modbus.is_connected (client_new dev) = false) by reflexivity.
  split; [exact H|].
  exact (proj1 (client_error_messages peer (fun _ _ _ => None) (client_new dev) reg 0 5
                  "No connection available") H).
Defined.

End WriteHandlerFacts.

Module AuthMoreFacts.

Import Auth.

(** [api_key_auth] rejects only when authentication is on and the path is
    not excluded, always with 401 and error "unauthorized": "Invalid API
    key" for a readable header that is no configured key, "Missing
    X-API-Key header" when the header is absent or not visible ASCII. *)
Theorem api_key_auth_rejections (config : AuthConfig) (path : string)
    (header : option string) (status : Z) (body : AuthError) :
  api_key_auth config path header = Reject status body ->
  enabled config = true /\ is_excluded_path config path = false /\
  status = 401 /\ auth_error body = "unauthorized" /\
  ((auth_message body = "Invalid API key" /\
    exists k, header = Some k /\ header_to_str k = Some k /\ ~ In k (api_keys config)) \/
   (auth_message body = "Missing X-API-Key header" /\
    (header = None \/ exists k, header = Some k /\ header_to_str k = None))).
Proof.
  unfold api_key_auth.
  destruct (enabled config); simpl; [|discriminate].
  destruct (is_excluded_path config path); [discriminate|].
  destruct header as [k|]; simpl.
  - destruct (header_to_str k) as [key|] eqn:Hs.
    + assert (key = k) as ->.
      { unfold header_to_str in Hs. destruct forallb; congruence. }
      destruct (is_valid_key config k) eqn:Hv; [discriminate|].
      intros H. injection H as <- <-. simpl. repeat split.
      left. split; [reflexivity|]. exists k. repeat split; [exact Hs|].
      intros Hin. unfold is_valid_key in Hv.
      assert (existsb (fun k' => String.eqb k' k) (api_keys config) = true)
        by (apply existsb_exists; exists k; split; [exact Hin|apply String.eqb_refl]).
      congruence.
    + intros H. injection H as <- <-. simpl. repeat split. right. split; [reflexivity|].
      right. eauto.
  - intros H. injection H as <- <-. simpl. repeat split. right. auto.
Qed.

Lemma api_key_auth_rejections_witness :
  let config := mkAuthConfig true ["secret-key-1"] ["/health"] in
  api_key_auth config "/api/devices" (Some "wrong")
  = Reject 401 (mkAuthError "unauthorized" "Invalid API key") /\
  is_excluded_path config "/api/devices" = false.
Proof.
  intros config.
  assert (H : api_key_auth config "/api/devices" (Some "wrong")
              = Reject 401 (mkAuthError "unauthorized" "Invalid API key"))
    by reflexivity.
  split; [exact H|].
  exact (proj1 (proj2 (api_key_auth_rejections config _ _ _ _ H))).
Defined.

(** A configured key sent as a readable header is admitted on every path. *)
Theorem api_key_auth_valid_key (config : AuthConfig) (path key : string) :
  In key (api_keys config) -> header_to_str key = Some key ->
  api_key_auth config path (Some key) = RunNext.
Proof.
  intros Hin Hs. unfold api_key_auth. simpl. rewrite Hs.
  assert (Hv : is_valid_key config key = true).
  { apply existsb_exists. exists key. split; [exact Hin|apply String.eqb_refl]. }
  rewrite Hv. destruct (enabled config), (is_excluded_path config path); reflexivity.
Qed.

Lemma api_key_auth_valid_key_witness :
  let config := mkAuthConfig true ["secret-key-1"; "secret-key-2"] ["/health"] in
  In "secret-key-2" (api_keys config) /\ header_to_str "secret-key-2" = Some "secret-key-2" /\
  api_key_auth config "/api/devices" (Some "secret-key-2") = RunNext.
Proof.
  intros config.
  assert (Hin : In "secret-key-2" (api_keys config)) by (right; left; reflexivity).
  assert (Hs : header_to_str "secret-key-2" = Some "secret-key-2") by reflexivity.
  split; [exact Hin|split; [exact Hs|]].
  exact (api_key_auth_valid_key config "/api/devices" "secret-key-2" Hin Hs).
Defined.

(** A key that is not visible ASCII can never authenticate on a protected
    path, even when configured: it is reported as a missing header. *)
Theorem api_key_auth_unreadable_key (config : AuthConfig) (path key : string) :
  enabled config = true -> is_excluded_path config path = false ->
  header_to_str key = None ->
  api_key_auth config path (Some key)
  = Reject 401 (mkAuthError "unauthorized" "Missing X-API-Key header").
Proof.
  intros He Hx Hs. unfold api_key_auth. rewrite He, Hx. simpl. rewrite Hs. reflexivity.
Qed.

Lemma api_key_auth_unreadable_key_witness :
  let key := String "c" (String "l" (String "233"%char EmptyString)) in
  let config := mkAuthConfig true [key] ["/health"] in
  enabled config = true /\ is_excluded_path config "/api/devices" = false /\
  header_to_str key = None /\ In key (api_keys config) /\
  api_key_auth config "/api/devices" (Some key)
  = Reject 401 (mkAuthError "unauthorized" "Missing X-API-Key header").
Proof.
  intros key config.
  assert (He : enabled config = true) by reflexivity.
  assert (Hx : is_excluded_path config "/api/devices" = false) by reflexivity.
  assert (Hs : header_to_str key = None) by reflexivity.
  split; [exact He|split; [exact Hx|split; [exact Hs|split; [left; reflexivity|]]]].
  exact (api_key_auth_unreadable_key config "/api/devices" key He Hx Hs).
Defined.

(** An exclusion entry ["*"] switches the check off for every path and
    header. *)
Theorem star_entry_excludes_all (config : AuthConfig) (path : string)
    (header : option string) :
  In "*" (exclude_paths config) -> api_key_auth config path header = RunNext.
Proof.
  intros Hin.
  assert (Hx : is_excluded_path config path = true).
  { apply AuthFacts.is_excluded_path_iff. exists "*". split; [exact Hin|].
    left. exists EmptyString, path. split; reflexivity. }
  unfold api_key_auth. rewrite Hx. destruct (enabled config); reflexivity.
Qed.

Lemma star_entry_excludes_all_witness :
  let config := mkAuthConfig true [] ["/health"; "*"] in
  In "*" (exclude_paths config) /\ api_key_auth config "/api/devices" None = RunNext.
Proof.
  intros config.
  assert (Hin : In "*" (exclude_paths config)) by (right; left; reflexivity).
  split; [exact Hin|].
  exact (star_entry_excludes_all config "/api/devices" None Hin).
Defined.

End AuthMoreFacts.

Module WsMoreFacts.

Import Ws Api Observe.

Lemma frame_updates_app (f g : list OutFrame) :
  frame_updates (f ++ g) = frame_updates f ++ frame_updates g.
Proof.
  induction f as [|[[]|] f IH]; simpl; try rewrite IH; reflexivity.
Qed.

Lemma step_sent (s : Session) (ev : Event) :
  exists f, sent (step s ev) = sent s ++ f /\ (length f <= 1)%nat /\
            sublist (frame_updates f) (bus_updates [ev]).
Proof.
  assert (Hkeep : exists f, sent s = sent s ++ f /\ (length f <= 1)%nat /\
                            sublist (frame_updates f) (bus_updates [ev]))
    by (exists []; rewrite app_nil_r; split; [reflexivity|split; [simpl; lia|apply sublist_nil_l]]).
  unfold step. destruct (negb (running s)); [exact Hkeep|].
  destruct ev as [[[[]|]| | | | |]|[u| |]]; simpl; try exact Hkeep;
    try (eexists [_]; split; [reflexivity|split; [simpl; lia|simpl; apply sublist_nil_l]]).
  destruct (should_send (subscribed_devices s) u); [|exact Hkeep].
  exists [TextFrame (Update u)]. split; [reflexivity|split; [simpl; lia|]].
  simpl. apply sublist_skip, sublist_nil.
Qed.

(** [handle_socket] sends at most one frame per event, only appends to
    what it has sent, and the updates it forwards are bus updates, in bus
    order, none repeated or invented. *)
Theorem ws_frames_follow_events (s : Session) (evs : list Event) :
  exists frames, sent (run s evs) = sent s ++ frames /\
    (length frames <= length evs)%nat /\
    sublist (frame_updates frames) (bus_updates evs).
Proof.
  revert s. induction evs as [|ev evs IH]; intros s.
  - exists []. rewrite app_nil_r. split; [reflexivity|split; [simpl; lia|apply sublist_nil]].
  - unfold run in *. simpl.
    destruct (step_sent s ev) as [f [Hf [Hlen Hsub]]].
    destruct (IH (step s ev)) as [g [Hg [Hglen Hgsub]]].
    exists (f ++ g). rewrite Hg, Hf, app_assoc. split; [reflexivity|split].
    + rewrite length_app. simpl. lia.
    + rewrite frame_updates_app.
      destruct ev as [|[]]; exact (sublist_app _ _ _ _ Hsub Hgsub).
Qed.

Lemma run_stopped (s : Session) (evs : list Event) :
  running s = false -> run s evs = s.
Proof.
  intros Hr. unfold run. induction evs as [|ev evs IH]; [reflexivity|].
  simpl. unfold step at 2. rewrite Hr. exact IH.
Qed.

(** A close frame, a receive error or the end of the client stream, and the
    closing of the update bus, end the session: nothing is sent afterwards,
    whatever events follow. *)
Theorem ws_close_is_final (s : Session) (ev : Event) (evs : list Event) :
  In ev [FromClient ClientClose; FromClient ClientError; FromClient ClientEnd;
         FromBus BusClosed] ->
  sent (run s (ev :: evs)) = sent s /\ running (run s (ev :: evs)) = false.
Proof.
  intros Hev. change (run s (ev :: evs)) with (run (step s ev) evs).
  assert (Hs : sent (step s ev) = sent s /\ running (step s ev) = false \/
               step s ev = s /\ running s = false).
  { unfold step. destruct (running s) eqn:Hr; simpl; [left|right; auto].
    destruct Hev as [<-|[<-|[<-|[<-|[]]]]]; split; reflexivity. }
  destruct Hs as [[Hsent Hr]|[Heq Hr]].
  - rewrite (run_stopped _ evs Hr). split; assumption.
  - rewrite Heq. rewrite (run_stopped _ evs Hr). split; [reflexivity|exact Hr].
Qed.

Lemma ws_close_is_final_witness :
  let u := mkRegisterUpdate "plc-001" "temperature" 25%float [250] None 0 in
  In (FromClient ClientClose) [FromClient ClientClose; FromClient ClientError;
        FromClient ClientEnd; FromBus BusClosed] /\
  sent (run session_start [FromClient ClientClose; FromBus (BusUpdate u);
                           FromClient (ClientText (inl Ping))])
  = sent session_start.
Proof.
  intros u.
  assert (H : In (FromClient ClientClose) [FromClient ClientClose; FromClient ClientError;
                 FromClient ClientEnd; FromBus BusClosed]) by (left; reflexivity).
  split; [exact H|].
  exact (proj1 (ws_close_is_final session_start _ [FromBus (BusUpdate u);
                  FromClient (ClientText (inl Ping))] H)).
Defined.

End WsMoreFacts.

Module MqttFacts.

Import Mqtt.

Lemma append_cancel_l (a b c : string) :
  String.append a b = String.append a c -> b = c.
Proof.
  induction a as [|x a IH]; simpl; [auto|]. intros H. injection H as H. apply IH, H.
Qed.

(** [publish] and [publish_status] of one device share a topic exactly
    when the register is named "status": its values, published without
    retain, then land on the retained availability topic. *)
Theorem value_status_topic_collision (p : MqttPublisher) (device_id : string)
    (value : Store.RegisterValue) (online : bool) :
  topic (publish p device_id value) = topic (publish_status p device_id online)
  <-> Store.name value = "status".
Proof.
  unfold publish, publish_status, value_topic, status_topic. simpl. split.
  - intros H. apply append_cancel_l, append_cancel_l, append_cancel_l in H.
    change "/status" with (String.append "/" "status") in H.
    exact (append_cancel_l _ _ _ H).
  - intros ->. reflexivity.
Qed.

(** Topics do not separate device ids from register names: a "/" in a
    device id or register name can move between the two fields without
    changing the topic. *)
Theorem value_topic_ambiguous (p : MqttPublisher) (device_id middle register_name : string) :
  value_topic p (String.append device_id (String.append "/" middle)) register_name
  = value_topic p device_id (String.append middle (String.append "/" register_name)).
Proof.
  unfold value_topic. do 2 f_equal.
  induction device_id as [|a d IH]; [reflexivity|exact (f_equal (String a) IH)].
Qed.

End MqttFacts.
